(** * AngularForce: a shallow embedding of the AngularJS / forcetk glue layer

    The development follows the two Angular modules of the library:
    - [Factory]  : [AngularForceObjectFactory], the SOQL / SOSL string
                   builders, the entity constructor, the diff helpers and
                   the CRUD forwarders;
    - [Legacy]   : the query string and the diff of the first version of
                   the factory;
    - [Service]  : the [AngularForce] authentication service (login
                   dispatch, the three login strategies, logout), run as
                   a state machine over [SFConfig].

    [JS] holds the fragment of JavaScript the source relies on: primitive
    values with truthiness, string coercion and the loose comparison with
    the empty string, objects with identity, strict equality, property
    reads through the entity prototype, [angular.copy], undeclared
    globals and thrown exceptions.  forcetk is outside the library and
    enters as the interface [ForceTK].

    The facts come after the definitions: [SoqlFacts] (query strings),
    [DiffFacts] and [EntityFacts] (diff, constructor, CRUD),
    [ServiceFacts] (login, logout, the life of [SFConfig.client]) and
    [Instances] (the theorems at the data of [Samples]). *)

From Stdlib Require Import ZArith DecimalString.
From stdpp Require Import gmap strings list fin_maps.

#[local] Set Warnings "-register-all".

(* ===================================================================== *)
(** ** The JavaScript fragment                                            *)
(* ===================================================================== *)

Module JS.

(** Primitive values.  Numbers are the integers together with [NaN]:
    [NaN] is kept apart because it is the one primitive that is falsy,
    prints as a word and is not strictly equal to itself. *)
Inductive prim :=
| PUndefined
| PNull
| PBool (b : bool)
| PNum (z : Z)
| PNaN
| PStr (s : string).

#[global] Instance prim_eq_dec : EqDecision prim.
Proof. solve_decision. Defined.

(** ToBoolean on primitives. *)
Definition truthy_prim (p : prim) : bool :=
  match p with
  | PUndefined | PNull | PNaN => false
  | PBool b => b
  | PNum z => negb (z =? 0)%Z
  | PStr s => negb (String.eqb s "")
  end.

(** ToString on primitives, as performed by [+] with a string operand.
    A number is an integer here and prints in decimal digits, which is
    what JavaScript does below 1e21 (from there on it prints an
    exponent). *)
Definition to_string (p : prim) : string :=
  match p with
  | PUndefined => "undefined"
  | PNull => "null"
  | PBool true => "true"
  | PBool false => "false"
  | PNum z => NilZero.string_of_int (Z.to_int z)
  | PNaN => "NaN"
  | PStr s => s
  end.

(** [p != ''] (loose inequality with the empty string): [undefined] and
    [null] only equal each other; booleans and numbers are compared with
    ToNumber('') = 0; strings are compared as strings. *)
Definition loose_ne_empty (p : prim) : bool :=
  match p with
  | PUndefined | PNull | PNaN => true
  | PBool b => b
  | PNum z => negb (z =? 0)%Z
  | PStr s => negb (String.eqb s "")
  end.

(** Object identity. *)
Definition loc := nat.

(** What [angular.isArray] and the prototype chain distinguish. *)
Inductive kind := Plain | Array | Entity.

#[global] Instance kind_eq_dec : EqDecision kind.
Proof. solve_decision. Defined.

(** Values: primitives, functions (compared by identity, held here by
    their name) and objects.  An object carries its identity, its kind and
    its own properties in insertion order, which is the order [for .. in]
    walks them. *)
Inductive value :=
| VPrim (p : prim)
| VFun (name : string)
| VObj (id : loc) (k : kind) (ps : list (string * value)).

Abbreviation props := (list (string * value)).

Abbreviation undefined := (VPrim PUndefined).

Definition truthy (v : value) : bool :=
  match v with
  | VPrim p => truthy_prim p
  | VFun _ | VObj _ _ _ => true
  end.

Definition isArray (v : value) : bool :=
  match v with
  | VObj _ Array _ => true
  | _ => false
  end.

Definition is_prim (v : value) : bool :=
  match v with VPrim _ => true | _ => false end.

(** [a === b]: by value on primitives ([NaN] equals nothing), by identity
    on functions and objects. *)
Definition strict_eq (a b : value) : bool :=
  match a, b with
  | VPrim PNaN, _ | _, VPrim PNaN => false
  | VPrim p, VPrim q => bool_decide (p = q)
  | VFun f, VFun g => String.eqb f g
  | VObj i _ _, VObj j _ _ => Nat.eqb i j
  | _, _ => false
  end.

Definition strict_ne (a b : value) : bool := negb (strict_eq a b).

(** Own properties. *)
Fixpoint own_get (k : string) (ps : props) : option value :=
  match ps with
  | [] => None
  | (k', v) :: r => if String.eqb k k' then Some v else own_get k r
  end.

(** [o[k] = v]: overwrite in place, or append a new property. *)
Fixpoint own_set (k : string) (v : value) (ps : props) : props :=
  match ps with
  | [] => [(k, v)]
  | (k', v') :: r =>
      if String.eqb k k' then (k, v) :: r else (k', v') :: own_set k v r
  end.

(** [delete o[k]]. *)
Fixpoint own_delete (k : string) (ps : props) : props :=
  match ps with
  | [] => []
  | (k', v') :: r =>
      if String.eqb k k' then own_delete k r else (k', v') :: own_delete k r
  end.

(** Thrown values: the source throws bare strings; the language itself
    throws a ReferenceError for an unresolvable identifier and a TypeError
    for a property read on [undefined] or [null] or a call of a
    non-function. *)
Inductive exn :=
| ThrownString (s : string)
| ReferenceError (ident : string)
| TypeError (what : string).

Inductive result (A : Type) :=
| Ok (a : A)
| Throw (e : exn).
Arguments Ok {A} a.
Arguments Throw {A} e.

#[global] Instance result_ret : MRet result := fun _ a => Ok a.
#[global] Instance result_bind : MBind result :=
  fun _ _ f m => match m with Ok a => f a | Throw e => Throw e end.

(** A global identifier that the file uses without declaring it:
    reading it throws a ReferenceError when no script declared it. *)
Inductive global :=
| Undeclared
| Declared (v : value).

Definition read_global (name : string) (g : global) : result value :=
  match g with
  | Undeclared => Throw (ReferenceError name)
  | Declared v => Ok v
  end.

(** The members of [AngularForceObject.prototype]: the default
    [constructor] and the two methods the source installs. *)
Definition entity_prototype : props :=
  [("constructor", VFun "AngularForceObject");
   ("update", VFun "AngularForceObject.prototype.update");
   ("destroy", VFun "AngularForceObject.prototype.destroy")].

(** The names every object answers to through [Object.prototype], the
    accessor [__proto__] among them.  Reads and writes under these
    names are not part of the fragment: what is stated for every
    property name or every listed field is stated for the other names. *)
Definition Object_prototype_names : list string :=
  ["constructor"; "hasOwnProperty"; "isPrototypeOf"; "propertyIsEnumerable";
   "toLocaleString"; "toString"; "valueOf";
   "__defineGetter__"; "__defineSetter__"; "__lookupGetter__"; "__lookupSetter__";
   "__proto__"].

(** [o[k]].  A read on [undefined] or [null] throws; an object answers
    from its own properties, an array also with its [length], an entity
    also from its prototype; anything unset reads as [undefined].  The
    built-in members of [Object.prototype] and of boxed primitives are
    not part of the fragment. *)
Definition js_get (o : value) (k : string) : result value :=
  match o with
  | VPrim PUndefined | VPrim PNull => Throw (TypeError ("Cannot read property " +:+ k))
  | VPrim _ | VFun _ => Ok undefined
  | VObj _ kd ps =>
      match own_get k ps with
      | Some v => Ok v
      | None =>
          match kd with
          | Plain => Ok undefined
          | Array =>
              if String.eqb k "length" then Ok (VPrim (PNum (Z.of_nat (length ps))))
              else Ok undefined
          | Entity => Ok (default undefined (own_get k entity_prototype))
          end
      end
  end.

(** [o[k]] where the read cannot throw. *)
Definition reads (o : value) (k : string) : value :=
  match js_get o k with
  | Ok v => v
  | Throw _ => undefined
  end.

(** The own properties of an object, none for other values. *)
Definition own (o : value) : props :=
  match o with
  | VObj _ _ ps => ps
  | _ => []
  end.

(** No property name occurs twice among the own properties. *)
Definition well_formed (o : value) : Prop := NoDup (own o).*1.

(** [angular.forEach(array, f)] where [f] updates an accumulator and may
    throw. *)
Fixpoint forEach {A B : Type} (f : B -> A -> result B) (l : list A) (acc : B) : result B :=
  match l with
  | [] => Ok acc
  | x :: r => acc' ← f acc x; forEach f r acc'
  end.

(** [angular.copy(source)] without a destination: primitives and
    functions are returned as they are, arrays and objects are rebuilt
    property by property as fresh arrays and plain objects.  [next] is
    the next unused identity; the function returns the one after the
    last it used. *)
Fixpoint copy (next : loc) (v : value) : value * loc :=
  match v with
  | VPrim _ | VFun _ => (v, next)
  | VObj _ kd ps =>
      let '(ps', n') :=
        (fix copy_props (n : loc) (l : props) : props * loc :=
           match l with
           | [] => ([], n)
           | (k, x) :: r =>
               let '(x', n1) := copy n x in
               let '(r', n2) := copy_props n1 r in
               ((k, x') :: r', n2)
           end) (S next) ps in
      (VObj next (match kd with Array => Array | _ => Plain end) ps', n')
  end.

(** The loop [for (key in source) destination[key] = copy(source[key])]. *)
Fixpoint copy_into (next : loc) (src dst : props) : props * loc :=
  match src with
  | [] => (dst, next)
  | (k, x) :: r =>
      let '(x', n1) := copy next x in
      copy_into n1 r (own_set k x' dst)
  end.

End JS.
Export JS.

(* ===================================================================== *)
(** ** The client library and the shared configuration object            *)
(* ===================================================================== *)

(** forcetk is not part of the library: its client is an abstract type
    with the operations the source applies to it. *)
Class ForceTK := {
  Client : Type;
  (** [new forcetk.Client(args)] *)
  newClient : list value -> Client;
  (** [client.setSessionToken(args)] *)
  setSessionToken : Client -> list value -> Client;
  (** [client.setRefreshToken(token)] *)
  setRefreshToken : Client -> value -> Client;
  (** [client.instanceUrl], [client.proxyUrl], [client.apiVersion] *)
  instanceUrl : Client -> prim;
  proxyUrl : Client -> prim;
  apiVersion : Client -> prim;
  (** [client.serviceURL = url] *)
  set_serviceURL : Client -> string -> Client
}.

(** The value of [SFConfig.client]. *)
Inductive client_ref `{ForceTK} :=
| NoClient            (** the property was never set *)
| NullClient          (** [null] *)
| TheClient (c : Client).

(** [SFConfig], with the properties the library reads and writes. *)
Record SFConfigT `{ForceTK} := {
  client : client_ref;
  inVisualforce : prim;
  sessionId : prim;
  sfLoginURL : prim;
  consumerKey : prim;
  oAuthCallbackURL : prim;
  cfg_proxyUrl : prim
}.

Definition set_client `{ForceTK} (cfg : SFConfigT) (c : client_ref) : SFConfigT :=
  {| client := c; inVisualforce := inVisualforce cfg; sessionId := sessionId cfg;
     sfLoginURL := sfLoginURL cfg; consumerKey := consumerKey cfg;
     oAuthCallbackURL := oAuthCallbackURL cfg; cfg_proxyUrl := cfg_proxyUrl cfg |}.

(* ===================================================================== *)
(** ** AngularForceObjectFactory: the query strings                       *)
(* ===================================================================== *)

Module Factory.

(** The parameter object of the factory.  [type], [where], [limit] and
    [orderBy] are read as primitives (an absent property reads as
    [undefined]); [fields] is absent or an array of field names. *)
Record Params := {
  p_type : prim;
  p_fields : option (list string);
  p_where : prim;
  p_limit : prim;
  p_orderBy : prim
}.

(** The empty object literal of [params || {}]. *)
Definition no_params : Params :=
  {| p_type := PUndefined; p_fields := None; p_where := PUndefined;
     p_limit := PUndefined; p_orderBy := PUndefined |}.

(** [x && x != ''], the test guarding the three optional clauses. *)
Definition given (p : prim) : bool := truthy_prim p && loose_ne_empty p.

(** [fields.join(sep)] on an array of strings. *)
Definition join (sep : string) (l : list string) : string := String.concat sep l.

Section Closure.

(** The argument of [AngularForceObjectFactory(params)]; [None] is a
    call without an argument. *)
Variable arg : option Params.

Definition params : Params := default no_params arg.

Definition type : prim := p_type params.

(** [angular.isArray(params.fields) ? params.fields : []] *)
Definition fieldsArray : list string := default [] (p_fields params).

(** [fields && fields.length > 0 ? fields.join(', ') : ''] *)
Definition fields : string :=
  match p_fields params with
  | Some l => if bool_decide (0 < length l) then join ", " l else ""
  | None => ""
  end.

(** [where && where != '' ? ' where ' + where : ''] *)
Definition where_ : string :=
  if given (p_where params) then " where " +:+ to_string (p_where params) else "".

(** [limit && limit != '' ? ' LIMIT ' + limit : 'LIMIT 25'] *)
Definition limit : string :=
  if given (p_limit params) then " LIMIT " +:+ to_string (p_limit params) else "LIMIT 25".

(** [orderBy && orderBy != '' ? ' ORDER BY ' + orderBy : ''] *)
Definition orderBy : string :=
  if given (p_orderBy params) then " ORDER BY " +:+ to_string (p_orderBy params) else "".

(** ['SELECT ' + fields + ' FROM ' + type + where + orderBy + limit];
    [+] associates to the left. *)
Definition soql : string :=
  ((((("SELECT " +:+ fields) +:+ " FROM ") +:+ to_string type) +:+ where_) +:+ orderBy) +:+ limit.


(** The query string as documented: the clauses in their order, each
    clause that is present after one space.  The where and ORDER BY
    clauses are present when their parameter is given; the LIMIT clause
    always is, with 25 when no limit is given. *)
Definition spaced_clause (keyword : string) (p : prim) : string :=
  if given p then " " +:+ keyword +:+ " " +:+ to_string p else "".

Definition documented_soql : string :=
  "SELECT " +:+ join ", " fieldsArray
    +:+ " FROM " +:+ to_string type
    +:+ spaced_clause "where" (p_where params)
    +:+ spaced_clause "ORDER BY" (p_orderBy params)
    +:+ " LIMIT " +:+ (if given (p_limit params) then to_string (p_limit params) else "25").

(** ['Find {__SEARCH_TERM_PLACEHOLDER__*} IN ALL FIELDS RETURNING ' + type + ' (' + fields + ')'] *)
Definition sosl_prefix : string := "Find {".
Definition sosl_placeholder : string := "__SEARCH_TERM_PLACEHOLDER__".
Definition sosl_suffix : string :=
  ((("*} IN ALL FIELDS RETURNING " +:+ to_string type) +:+ " (") +:+ fields) +:+ ")".
Definition sosl : string := sosl_prefix +:+ sosl_placeholder +:+ sosl_suffix.

(** *** The entity class *)

Context `{!ForceTK}.

(** The global [escape]. *)
Variable escape : string -> string.

(** The keys a [for (key in source)] loop visits, with their values:
    the own properties, for an entity then the enumerable members of
    its prototype that it does not shadow, for a string its
    characters. *)
Definition enumerable (source : value) : props :=
  match source with
  | VObj _ Entity ps =>
      ps ++ List.filter (fun kv => bool_decide (own_get kv.1 ps = None))
              (List.filter (fun kv => negb (String.eqb kv.1 "constructor")) entity_prototype)
  | VObj _ _ ps => ps
  | VPrim (PStr s) =>
      imap (fun i c => (to_string (PNum (Z.of_nat i)), VPrim (PStr (String c ""))))
           (String.list_ascii_of_string s)
  | _ => []
  end.

(** [new AngularForceObject(props)]:
    [angular.copy(props || {}, this); this._orig = props || {};]
    [new] allocates [this]; each [{}] is a fresh object.  Copying an
    array into [this] sets [this.length = 0] and then calls
    [this.push], which an entity does not have. *)
Definition AngularForceObject (next : loc) (props : value) : result (value * loc) :=
  let this := next in
  let '(source, n1) :=
    if truthy props then (props, S next) else (VObj (S next) Plain [], S (S next)) in
  '(own, n2) ←
    (if isArray source then
       match source with
       | VObj _ _ (_ :: _) => Throw (TypeError "destination.push is not a function")
       | _ => Ok ([("length", VPrim (PNum 0))], n1)
       end
     else Ok (copy_into n1 (enumerable source) []));
  let '(orig, n3) :=
    if truthy props then (props, n2) else (VObj n2 Plain [], S n2) in
  Ok (VObj this Entity (own_set "_orig" orig own), n3).

(** [AngularForceObject.getChangedData] *)
Definition getChangedData (obj : value) : result (gmap string value) :=
  let diff : gmap string value := ∅ in
  orig ← js_get obj "_orig";
  if negb (truthy orig) then Ok ∅ else
  forEach (fun diff field =>
             cur ← js_get obj field;
             old ← js_get orig field;
             if negb (String.eqb field "Id") && strict_ne cur old
             then Ok (<[field := cur]> diff)
             else Ok diff)
          fieldsArray diff.

(** The names an entity answers to without having copied them from
    its source: [_orig] and the members of its prototype. *)
Definition reserved : list string := "_orig" :: entity_prototype.*1.

(** One round of the loop of [getChangedData] when no read throws. *)
Definition diff_step (obj orig : value) (diff : gmap string value) (field : string)
  : gmap string value :=
  if negb (String.eqb field "Id") && strict_ne (reads obj field) (reads orig field)
  then <[field := reads obj field]> diff
  else diff.

(** [AngularForceObject.getNewObjectData] *)
Definition getNewObjectData (obj : value) : result (gmap string value) :=
  let newObj : gmap string value := ∅ in
  forEach (fun newObj field =>
             if negb (String.eqb field "Id")
             then cur ← js_get obj field; Ok (<[field := cur]> newObj)
             else Ok newObj)
          fieldsArray newObj.

(** The success function handed to the client: the caller's own, or
    one of the two anonymous wrappers around it. *)
Inductive success_fn :=
| Direct (successCB : value)
| Wrapped (successCB : value)
| WrappedSaved (successCB : value).

(** [if (data.id) { data.Id = data.id; delete data.id; }] *)
Definition rename_id (data : value) : result value :=
  id ← js_get data "id";
  if truthy id then
    match data with
    | VObj l kd ps => Ok (VObj l kd (own_delete "id" (own_set "Id" id ps)))
    | _ => Ok data
    end
  else Ok data.

(** The argument the wrapper hands to [successCB] when the client
    answers with [data]. *)
Definition success_arg (next : loc) (f : success_fn) (data : value) : result (value * loc) :=
  match f with
  | Direct _ => Ok (data, next)
  | Wrapped _ =>
      if truthy data && negb (isArray data)
      then AngularForceObject next data
      else Ok (data, next)
  | WrappedSaved _ =>
      if truthy data && negb (isArray data)
      then data' ← rename_id data; AngularForceObject next data'
      else Ok (data, next)
  end.

Definition success_target (f : success_fn) : value :=
  match f with Direct cb | Wrapped cb | WrappedSaved cb => cb end.

(** A call on the client: the method with its leading arguments, then
    the success function and the failure callback. *)
Inductive rest_method :=
| Mquery (soql : string)
| Msearch (s : string)
| Mretrieve (type : prim) (id : value) (fields : list string)
| Mcreate (type : prim) (data : gmap string value)
| Mupdate (type : prim) (id : value) (data : gmap string value)
| Mdel (type : prim) (id : value).

Record rest_call := {
  receiver : Client;
  method : rest_method;
  success : success_fn;
  failure : value
}.

Variable SFConfig : SFConfigT.

(** Reading a member of [SFConfig.client]. *)
Definition SFConfig_client : result Client :=
  match client SFConfig with
  | TheClient c => Ok c
  | _ => Throw (TypeError "SFConfig.client")
  end.

(** [String.prototype.replace] with a string pattern: the first
    occurrence only.  The replacement is taken literally: it comes
    from [escape], which leaves no [$] in it. *)
Fixpoint replace (pat rep s : string) : string :=
  if String.prefix pat s then rep +:+ String.substring (String.length pat) (String.length s - String.length pat) s
  else match s with
       | EmptyString => EmptyString
       | String c r => String c (replace pat rep r)
       end.

Definition query (successCB failureCB : value) : result rest_call :=
  c ← SFConfig_client;
  Ok {| receiver := c; method := Mquery soql; success := Direct successCB; failure := failureCB |}.

Definition search (searchTerm : prim) (successCB failureCB : value) : result rest_call :=
  let s := replace sosl_placeholder (escape (to_string searchTerm)) sosl in
  c ← SFConfig_client;
  Ok {| receiver := c; method := Msearch s; success := Direct successCB; failure := failureCB |}.

Definition get (params : value) (successCB failureCB : value) : result rest_call :=
  c ← SFConfig_client;
  id ← js_get params "id";
  Ok {| receiver := c; method := Mretrieve type id fieldsArray;
        success := Wrapped successCB; failure := failureCB |}.

Definition save (obj : value) (successCB failureCB : value) : result rest_call :=
  data ← getNewObjectData obj;
  c ← SFConfig_client;
  Ok {| receiver := c; method := Mcreate type data;
        success := WrappedSaved successCB; failure := failureCB |}.

Definition update (obj : value) (successCB failureCB : value) : result rest_call :=
  data ← getChangedData obj;
  c ← SFConfig_client;
  id ← js_get obj "Id";
  Ok {| receiver := c; method := Mupdate type id data;
        success := Wrapped successCB; failure := failureCB |}.

Definition remove (obj : value) (successCB failureCB : value) : result rest_call :=
  c ← SFConfig_client;
  id ← js_get obj "Id";
  Ok {| receiver := c; method := Mdel type id;
        success := Direct successCB; failure := failureCB |}.

(** [AngularForceObject.prototype.update] and [.destroy], with [this]
    as first argument. *)
Definition prototype_update (this : value) (successCB failureCB : value) : result rest_call :=
  update this successCB failureCB.

Definition prototype_destroy (this : value) (successCB failureCB : value) : result rest_call :=
  remove this successCB failureCB.

(** The operations of the entity class, as a caller names them. *)
Inductive entity_operation :=
| Equery (successCB failureCB : value)
| Esearch (searchTerm : prim) (successCB failureCB : value)
| Eget (params : value) (successCB failureCB : value)
| Esave (obj : value) (successCB failureCB : value)
| Eupdate (obj : value) (successCB failureCB : value)
| Eremove (obj : value) (successCB failureCB : value)
| Eprototype_update (this : value) (successCB failureCB : value)
| Eprototype_destroy (this : value) (successCB failureCB : value).

Definition perform (op : entity_operation) : result rest_call :=
  match op with
  | Equery s f => query s f
  | Esearch term s f => search term s f
  | Eget params s f => get params s f
  | Esave obj s f => save obj s f
  | Eupdate obj s f => update obj s f
  | Eremove obj s f => remove obj s f
  | Eprototype_update this s f => prototype_update this s f
  | Eprototype_destroy this s f => prototype_destroy this s f
  end.

End Closure.

End Factory.

(* ===================================================================== *)
(** ** The first version of the factory (angular-force.js)                *)
(* ===================================================================== *)

Module Legacy.

Section Closure.

Variable arg : option Factory.Params.

Definition params : Factory.Params := default Factory.no_params arg.
Definition type : prim := Factory.p_type params.
Definition fields : option (list string) := Factory.p_fields params.
Definition where_ : prim := Factory.p_where params.

(** ['SELECT ' + fields.join(',') + ' FROM ' + type + ' ' + where],
    built by [query] at each call; [fields.join] needs an array. *)
Definition soql : result string :=
  match fields with
  | Some l =>
      Ok ((((("SELECT " +:+ Factory.join "," l) +:+ " FROM ") +:+ to_string type) +:+ " ")
            +:+ to_string where_)
  | None => Throw (TypeError "fields.join")
  end.

(** [AngularForceObject.getChangedData], over [fields] itself:
    [angular.forEach] visits nothing when [fields] is not set. *)
Definition getChangedData (obj : value) : result (gmap string value) :=
  let diff : gmap string value := ∅ in
  orig ← js_get obj "_orig";
  if negb (truthy orig) then Ok ∅ else
  forEach (fun diff field =>
             cur ← js_get obj field;
             old ← js_get orig field;
             if negb (String.eqb field "Id") && strict_ne cur old
             then Ok (<[field := cur]> diff)
             else Ok diff)
          (default [] fields) diff.

(** [AngularForceObject.getNewObjectData], over [fields] itself. *)
Definition getNewObjectData (obj : value) : result (gmap string value) :=
  let newObj : gmap string value := ∅ in
  forEach (fun newObj field =>
             if negb (String.eqb field "Id")
             then cur ← js_get obj field; Ok (<[field := cur]> newObj)
             else Ok newObj)
          (default [] fields) newObj.

Context `{!ForceTK}.

(** A call on the client; [retrieve] is given the joined field names. *)
Inductive rest_method :=
| Mquery (soql : string)
| Mretrieve (type : prim) (id : value) (fields : string)
| Mcreate (type : prim) (data : gmap string value)
| Mupdate (type : prim) (id : value) (data : gmap string value)
| Mdel (type : prim) (id : value).

Record rest_call := {
  receiver : Client;
  method : rest_method;
  success : Factory.success_fn;
  failure : value
}.

Variable SFConfig : SFConfigT.

Definition query (successCB failureCB : value) : result rest_call :=
  q ← soql;
  c ← Factory.SFConfig_client SFConfig;
  Ok {| receiver := c; method := Mquery q;
        success := Factory.Direct successCB; failure := failureCB |}.

(** [fields.join()] *)
Definition joined_fields : result string :=
  match fields with
  | Some l => Ok (Factory.join "," l)
  | None => Throw (TypeError "fields.join")
  end.

Definition get (params : value) (successCB failureCB : value) : result rest_call :=
  c ← Factory.SFConfig_client SFConfig;
  id ← js_get params "id";
  fs ← joined_fields;
  Ok {| receiver := c; method := Mretrieve type id fs;
        success := Factory.Wrapped successCB; failure := failureCB |}.

(** The wrapper of [save] is the one of [get]: [id] is left as it is. *)
Definition save (obj : value) (successCB failureCB : value) : result rest_call :=
  data ← getNewObjectData obj;
  c ← Factory.SFConfig_client SFConfig;
  Ok {| receiver := c; method := Mcreate type data;
        success := Factory.Wrapped successCB; failure := failureCB |}.

Definition update (obj : value) (successCB failureCB : value) : result rest_call :=
  data ← getChangedData obj;
  c ← Factory.SFConfig_client SFConfig;
  id ← js_get obj "Id";
  Ok {| receiver := c; method := Mupdate type id data;
        success := Factory.Wrapped successCB; failure := failureCB |}.

Definition remove (obj : value) (successCB failureCB : value) : result rest_call :=
  c ← Factory.SFConfig_client SFConfig;
  id ← js_get obj "Id";
  Ok {| receiver := c; method := Mdel type id;
        success := Factory.Direct successCB; failure := failureCB |}.

(** [prototype.update = function (cb) { return AngularForceObject.update(this, cb); }]
    and [prototype.destroy] likewise: the third parameter is not passed. *)
Definition prototype_update (this : value) (cb : value) : result rest_call :=
  update this cb undefined.

Definition prototype_destroy (this : value) (cb : value) : result rest_call :=
  remove this cb undefined.

End Closure.

End Legacy.

(* ===================================================================== *)
(** ** The AngularForce service                                           *)
(* ===================================================================== *)

Module Service.

Section Service.

Context `{!ForceTK}.

(** What the service reads from the page: [location.protocol] and the
    globals [cordova], [apiVersion] and [logToConsole], none of which
    the library declares; and what [cordova.require] returns for
    ["salesforce/plugin/oauth"] where it is a function. *)
Record Env := {
  location_protocol : string;
  cordova : global;
  apiVersion_global : global;
  logToConsole : global;
  oauth_plugin : value
}.

(** The functions the service hands to its collaborators. *)
Inductive handler :=
| salesforceSessionRefreshed_of (callback : value)
| getAuthCredentialsError_h
| forceOAuthUI_successHandler_h
| forceOAuthUI_errorHandler_h.

(** A [forcetk.ClientUI] object: the constructor arguments and the
    three properties [logout] sets on it. *)
Record ClientUI := {
  ui_loginURL : prim;
  ui_consumerKey : prim;
  ui_callbackURL : prim;
  ui_success : handler;
  ui_error : handler;
  ui_proxyUrl : prim;
  ui_client : option Client;
  ui_instanceUrl : prim;
  ui_clientProxyUrl : prim
}.

(** Calls that leave the library, in the order they are made. *)
Inductive event :=
| Invoke (callback : value)
| GetAuthCredentials (onSuccess onError : handler)
| AddEventListener (type : string) (listener : handler)
| NewClientUI (ui : ClientUI)
| ClientUI_login (ui : ClientUI) (callback : value)
| ClientUI_oauthCallback (ui : ClientUI) (callbackString : value)
| ClientUI_logout (ui : ClientUI) (callback : value)
| NewClient (args : list value)
| SetSessionToken (args : list value)
| SetRefreshToken (token : value)
| ConsoleLog (s : string)
| LogToConsole (s : string)
| Rest (call : Factory.rest_call).

(** The service runs over [SFConfig] ([None] when the injected value
    is falsy), records the outside calls and may throw; what was done
    before a throw stays done. *)
Definition M (A : Type) : Type :=
  option SFConfigT -> option SFConfigT * list event * result A.

#[global] Instance M_ret : MRet M := fun _ a st => (st, [], Ok a).
#[global] Instance M_bind : MBind M := fun _ _ f m st =>
  match m st with
  | (st1, t1, Ok a) => let '(st2, t2, r) := f a st1 in (st2, t1 ++ t2, r)
  | (st1, t1, Throw e) => (st1, t1, Throw e)
  end.

Definition throw {A} (e : exn) : M A := fun st => (st, [], Throw e).
Definition emit (e : event) : M unit := fun st => (st, [e], Ok tt).
Definition lift {A} (r : result A) : M A := fun st => (st, [], r).

(** [SFConfig.p]: a property read on the injected object. *)
Definition read {A} (p : SFConfigT -> A) : M A := fun st =>
  match st with
  | Some cfg => (st, [], Ok (p cfg))
  | None => (st, [], Throw (TypeError "SFConfig"))
  end.

(** [SFConfig.client = c] *)
Definition write_client (c : client_ref) : M unit := fun st =>
  match st with
  | Some cfg => (Some (set_client cfg c), [], Ok tt)
  | None => (st, [], Throw (TypeError "SFConfig"))
  end.

Definition client_truthy (c : client_ref) : bool :=
  match c with TheClient _ => true | _ => false end.

(** A member read on [SFConfig.client]. *)
Definition the_client : M Client :=
  c ← read client;
  match c with
  | TheClient c => mret c
  | _ => throw (TypeError "SFConfig.client")
  end.

(** [f()] *)
Definition invoke (f : value) : M unit :=
  match f with
  | VFun _ => emit (Invoke f)
  | _ => throw (TypeError "not a function")
  end.

(** [callback && callback()] *)
Definition invoke_if_given (callback : value) : M unit :=
  if truthy callback then invoke callback else mret tt.

Variable env : Env.

(** [this.inVisualforce = document.location.href.indexOf('visual.force.com') > 0],
    a property of the service; [login] consults [SFConfig.inVisualforce]. *)
Definition service_inVisualforce (href : string) : bool :=
  match String.index 0 "visual.force.com" href with
  | Some n => bool_decide (0 < n)
  | None => false
  end.

(** [this.authenticated] *)
Definition authenticated : M bool :=
  c ← read client; mret (client_truthy c).

(** [getForceTKClientUI()] *)
Definition getForceTKClientUI : M ClientUI :=
  loginURL ← read sfLoginURL;
  key ← read consumerKey;
  callbackURL ← read oAuthCallbackURL;
  proxy ← read cfg_proxyUrl;
  let ui := {| ui_loginURL := loginURL; ui_consumerKey := key; ui_callbackURL := callbackURL;
               ui_success := forceOAuthUI_successHandler_h;
               ui_error := forceOAuthUI_errorHandler_h;
               ui_proxyUrl := proxy; ui_client := None;
               ui_instanceUrl := PUndefined; ui_clientProxyUrl := PUndefined |} in
  _ ← emit (NewClientUI ui);
  mret ui.

(** [function forceOAuthUI_successHandler(forcetkClient)] *)
Definition forceOAuthUI_successHandler (forcetkClient : Client) : M unit :=
  _ ← emit (ConsoleLog "OAuth callback success!");
  _ ← write_client (TheClient forcetkClient);
  c ← the_client;
  write_client
    (TheClient (set_serviceURL c
       ((to_string (instanceUrl forcetkClient) +:+ "/services/data/")
          +:+ to_string (apiVersion forcetkClient)))).

(** [function salesforceSessionRefreshed(creds)], closed over the
    [callback] of [setCordovaLoginCred]. *)
Definition salesforceSessionRefreshed (callback : value) (creds : value) : M unit :=
  data ← lift (js_get creds "data");
  let credsData := if truthy data then data else creds in
  clientId ← lift (js_get credsData "clientId");
  loginUrl ← lift (js_get credsData "loginUrl");
  _ ← emit (NewClient [clientId; loginUrl]);
  _ ← write_client (TheClient (newClient [clientId; loginUrl]));
  c ← the_client;
  accessToken ← lift (js_get credsData "accessToken");
  version ← lift (read_global "apiVersion" (apiVersion_global env));
  url ← lift (js_get credsData "instanceUrl");
  _ ← emit (SetSessionToken [accessToken; version; url]);
  _ ← write_client (TheClient (setSessionToken c [accessToken; version; url]));
  c ← the_client;
  refreshToken ← lift (js_get credsData "refreshToken");
  _ ← emit (SetRefreshToken refreshToken);
  _ ← write_client (TheClient (setRefreshToken c refreshToken));
  invoke callback.

(** [function getAuthCredentialsError(error)] *)
Definition getAuthCredentialsError (error : prim) : M unit :=
  f ← lift (read_global "logToConsole" (logToConsole env));
  match f with
  | VFun _ => emit (LogToConsole ("getAuthCredentialsError: " +:+ to_string error))
  | _ => throw (TypeError "logToConsole is not a function")
  end.

(** [this.setCordovaLoginCred] *)
Definition setCordovaLoginCred (callback : value) : M unit :=
  c ← lift (read_global "cordova" (cordova env));
  if negb (truthy c) then throw (ThrownString "Cordova/PhoneGap not found.") else
  require ← lift (js_get c "require");
  match require with
  | VFun _ =>
      getAuthCredentials ← lift (js_get (oauth_plugin env) "getAuthCredentials");
      match getAuthCredentials with
      | VFun _ =>
          _ ← emit (GetAuthCredentials (salesforceSessionRefreshed_of callback)
                      getAuthCredentialsError_h);
          emit (AddEventListener "salesforceSessionRefresh"
                  (salesforceSessionRefreshed_of callback))
      | _ => throw (TypeError "getAuthCredentials is not a function")
      end
  | _ => throw (TypeError "cordova.require is not a function")
  end.

(** [this.loginWeb] *)
Definition loginWeb (callback : value) : M unit := fun st =>
  match st with
  | None => throw (ThrownString "Must set app.SFConfig where app is your AngularJS app") st
  | Some _ =>
      (c ← read client;
       if client_truthy c then invoke_if_given callback else
       ftkClientUI ← getForceTKClientUI;
       emit (ClientUI_login ftkClientUI callback)) st
  end.

(** [this.loginVF] *)
Definition loginVF : M unit :=
  _ ← emit (NewClient []);
  _ ← write_client (TheClient (newClient []));
  c ← the_client;
  sid ← read sessionId;
  _ ← emit (SetSessionToken [VPrim sid]);
  write_client (TheClient (setSessionToken c [VPrim sid])).

(** [location.protocol === 'file:' && cordova] as a condition *)
Definition in_cordova : M bool :=
  if String.eqb (location_protocol env) "file:"
  then c ← lift (read_global "cordova" (cordova env)); mret (truthy c)
  else mret false.

(** [this.login] *)
Definition login (callback : value) : M unit :=
  c ← read client;
  if client_truthy c then invoke_if_given callback else
  b ← in_cordova;
  if (b : bool) then setCordovaLoginCred callback else
  vf ← read inVisualforce;
  if truthy_prim vf then loginVF else loginWeb callback.

(** [this.oauthCallback] *)
Definition oauthCallback (callbackString : value) : M unit :=
  ftkClientUI ← getForceTKClientUI;
  emit (ClientUI_oauthCallback ftkClientUI callbackString).

(** [this.logout] *)
Definition logout (callback : value) : M unit :=
  c ← read client;
  match c with
  | TheClient cl =>
      ftkClientUI ← getForceTKClientUI;
      let ui := {| ui_loginURL := ui_loginURL ftkClientUI;
                   ui_consumerKey := ui_consumerKey ftkClientUI;
                   ui_callbackURL := ui_callbackURL ftkClientUI;
                   ui_success := ui_success ftkClientUI;
                   ui_error := ui_error ftkClientUI;
                   ui_proxyUrl := ui_proxyUrl ftkClientUI;
                   ui_client := Some cl;
                   ui_instanceUrl := instanceUrl cl;
                   ui_clientProxyUrl := proxyUrl cl |} in
      _ ← emit (ClientUI_logout ui callback);
      write_client NullClient
  | _ => mret tt
  end.

(** [forceOAuthUI_successHandler] called with [undefined] (as when
    called with nothing) or [null] in the place of the client: the log
    line is written and [SFConfig.client = forcetkClient] stores the
    argument before the next statement throws on a property of it. *)
Definition forceOAuthUI_successHandler_without_client (forcetkClient : client_ref) : M unit :=
  _ ← emit (ConsoleLog "OAuth callback success!");
  _ ← write_client forcetkClient;
  throw (TypeError "Cannot set property serviceURL").

(** A collaborator calling one of the handlers the service handed out,
    with what it passes: the plugin passes the credentials or the
    refresh event, any value; the plugin passes its error; the OAuth
    window passes what it has for a client, [undefined] and [null]
    included; the error handler ignores its arguments. *)
Inductive handler_call :=
| Call_salesforceSessionRefreshed (callback creds : value)
| Call_getAuthCredentialsError (error : prim)
| Call_forceOAuthUI_successHandler (forcetkClient : client_ref)
| Call_forceOAuthUI_errorHandler.

Definition run_handler (call : handler_call) : M unit :=
  match call with
  | Call_salesforceSessionRefreshed callback creds => salesforceSessionRefreshed callback creds
  | Call_getAuthCredentialsError error => getAuthCredentialsError error
  | Call_forceOAuthUI_successHandler (TheClient c) => forceOAuthUI_successHandler c
  | Call_forceOAuthUI_successHandler r => forceOAuthUI_successHandler_without_client r
  | Call_forceOAuthUI_errorHandler => mret tt
  end.

(** An entity class made by the factory from [arg], with the global
    [escape]: its operations read [SFConfig] and call the client. *)
Variable arg : option Factory.Params.
Variable escape : string -> string.

Definition entity (op : Factory.entity_operation) : M unit :=
  cfg ← read (fun cfg => cfg);
  call ← lift (Factory.perform arg escape cfg op);
  emit (Rest call).

(** The operations of the service and of the entity class, and a
    collaborator calling one of the handlers back. *)
Inductive operation :=
| EntityOp (op : Factory.entity_operation)
| Authenticated
| Login (callback : value)
| SetCordovaLoginCred (callback : value)
| LoginWeb (callback : value)
| LoginVF
| OauthCallback (callbackString : value)
| Logout (callback : value)
| Handler (call : handler_call).

Definition run (op : operation) : M unit :=
  match op with
  | EntityOp op => entity op
  | Authenticated => _ ← authenticated; mret tt
  | Login callback => login callback
  | SetCordovaLoginCred callback => setCordovaLoginCred callback
  | LoginWeb callback => loginWeb callback
  | LoginVF => loginVF
  | OauthCallback callbackString => oauthCallback callbackString
  | Logout callback => logout callback
  | Handler call => run_handler call
  end.

(** A value on which reading a property throws. *)
Definition nullish (v : value) : bool :=
  match v with
  | VPrim PUndefined | VPrim PNull => true
  | _ => false
  end.

(** [login] reaches [loginVF]: no session, the test
    [location.protocol === 'file:' && cordova] is evaluated and false,
    and [SFConfig.inVisualforce] is truthy. *)
Definition selects_Visualforce (cfg : SFConfigT) : bool :=
  negb (client_truthy (client cfg))
  && (if String.eqb (location_protocol env) "file:"
      then match cordova env with
           | Declared c => negb (truthy c)
           | Undeclared => false
           end
      else true)
  && truthy_prim (inVisualforce cfg).

(** The operations that reach an assignment of a client to
    [SFConfig.client]: [loginVF]; [login] when it selects it; the
    credentials handler of the Cordova strategy once [creds.data],
    [clientId] and [loginUrl] are read, which asks for credentials that
    are neither [undefined] nor [null]; the success handler of the OAuth
    window given a client. *)
Definition stores_client (op : operation) (cfg : SFConfigT) : bool :=
  match op with
  | LoginVF => true
  | Login _ => selects_Visualforce cfg
  | Handler (Call_salesforceSessionRefreshed _ creds) => negb (nullish creds)
  | Handler (Call_forceOAuthUI_successHandler (TheClient _)) => true
  | _ => false
  end.

(** The operations that assign something else to [SFConfig.client], and
    what: [logout] with a client present assigns [null]; the success
    handler of the OAuth window given [undefined] or [null] assigns
    that. *)
Definition unsets_client (op : operation) (cfg : SFConfigT) : option client_ref :=
  match op with
  | Logout _ => if client_truthy (client cfg) then Some NullClient else None
  | Handler (Call_forceOAuthUI_successHandler (TheClient _)) => None
  | Handler (Call_forceOAuthUI_successHandler r) => Some r
  | _ => None
  end.

End Service.

(** [SFConfig] after an operation, the calls it made and how it ended. *)
Definition state_after {F : ForceTK} {A} (m : M A) (st : option SFConfigT) : option SFConfigT :=
  (m st).1.1.
Definition calls_of {F : ForceTK} {A} (m : M A) (st : option SFConfigT) : list event :=
  (m st).1.2.
Definition outcome {F : ForceTK} {A} (m : M A) (st : option SFConfigT) : result A :=
  (m st).2.

(** [SFConfig.client] in a state of the service. *)
Definition client_of {F : ForceTK} (st : option SFConfigT) : client_ref :=
  match st with
  | Some cfg => client cfg
  | None => NoClient
  end.

(** [SFConfig.client] holds a client. *)
Definition has_client {F : ForceTK} (st : option SFConfigT) : Prop :=
  exists c, client_of st = TheClient c.

(** An operation that leaves [SFConfig] as it found it. *)
Definition keeps {F : ForceTK} {A} (m : M A) : Prop :=
  forall st, state_after m st = st.

(** [SFConfig] is as before, or differs in holding a client. *)
Definition evolves {F : ForceTK} (st st' : option SFConfigT) : Prop :=
  st' = st \/ exists cfg c, st = Some cfg /\ st' = Some (set_client cfg (TheClient c)).

(** An operation that at most puts a client into [SFConfig]. *)
Definition populates_at_most {F : ForceTK} {A} (m : M A) : Prop :=
  forall st, evolves st (state_after m st).

(** Modelled from the spec: the configuration object is made by the
    application, outside the library; the spec gives its client as
    absent at process start. *)
Definition SFConfig_at_start {F : ForceTK}
    (flag session loginURL key callbackURL proxy : prim) : SFConfigT :=
  {| client := NoClient; inVisualforce := flag; sessionId := session;
     sfLoginURL := loginURL; consumerKey := key; oAuthCallbackURL := callbackURL;
     cfg_proxyUrl := proxy |}.

End Service.

(* ===================================================================== *)
(** ** The first version of the service (angular-force.js)                *)
(* ===================================================================== *)

Module LegacyService.

Section Service.

Context `{!ForceTK}.

(** Calls that leave the library.  The [ClientUI] gets three values of
    [SFConfig] and a success handler closed over the callback of
    [login]. *)
Inductive event :=
| Invoke (callback : value)
| GetAuthCredentials
| AddEventListener (type : string)
| NewClientUI (loginURL consumerKey callbackURL : prim) (callback : value)
| ClientUI_login
| NewClient (args : list value)
| SetSessionToken (args : list value)
| SetRefreshToken (token : value)
| ConsoleLog (s : string)
| LogToConsole (s : string).

Definition M (A : Type) : Type :=
  option SFConfigT -> option SFConfigT * list event * result A.

#[global] Instance M_ret : MRet M := fun _ a st => (st, [], Ok a).
#[global] Instance M_bind : MBind M := fun _ _ f m st =>
  match m st with
  | (st1, t1, Ok a) => let '(st2, t2, r) := f a st1 in (st2, t1 ++ t2, r)
  | (st1, t1, Throw e) => (st1, t1, Throw e)
  end.

Definition throw {A} (e : exn) : M A := fun st => (st, [], Throw e).
Definition emit (e : event) : M unit := fun st => (st, [e], Ok tt).
Definition lift {A} (r : result A) : M A := fun st => (st, [], r).

Definition read {A} (p : SFConfigT -> A) : M A := fun st =>
  match st with
  | Some cfg => (st, [], Ok (p cfg))
  | None => (st, [], Throw (TypeError "SFConfig"))
  end.

Definition write_client (c : client_ref) : M unit := fun st =>
  match st with
  | Some cfg => (Some (set_client cfg c), [], Ok tt)
  | None => (st, [], Throw (TypeError "SFConfig"))
  end.

Definition the_client : M Client :=
  c ← read client;
  match c with
  | TheClient c => mret c
  | _ => throw (TypeError "SFConfig.client")
  end.

(** [callback()] *)
Definition invoke (f : value) : M unit :=
  match f with
  | VFun _ => emit (Invoke f)
  | _ => throw (TypeError "not a function")
  end.

Variable env : Service.Env.

(** [function salesforceSessionRefreshed(creds)]: no callback here. *)
Definition salesforceSessionRefreshed (creds : value) : M unit :=
  data ← lift (js_get creds "data");
  let credsData := if truthy data then data else creds in
  clientId ← lift (js_get credsData "clientId");
  loginUrl ← lift (js_get credsData "loginUrl");
  _ ← emit (NewClient [clientId; loginUrl]);
  _ ← write_client (TheClient (newClient [clientId; loginUrl]));
  c ← the_client;
  accessToken ← lift (js_get credsData "accessToken");
  version ← lift (read_global "apiVersion" (Service.apiVersion_global env));
  url ← lift (js_get credsData "instanceUrl");
  _ ← emit (SetSessionToken [accessToken; version; url]);
  _ ← write_client (TheClient (setSessionToken c [accessToken; version; url]));
  c ← the_client;
  refreshToken ← lift (js_get credsData "refreshToken");
  _ ← emit (SetRefreshToken refreshToken);
  write_client (TheClient (setRefreshToken c refreshToken)).

(** [this.setCordovaLoginCred = function ()] *)
Definition setCordovaLoginCred : M unit :=
  c ← lift (read_global "cordova" (Service.cordova env));
  if negb (truthy c) then throw (ThrownString "Cordova/PhoneGap not found.") else
  require ← lift (js_get c "require");
  match require with
  | VFun _ =>
      getAuthCredentials ← lift (js_get (Service.oauth_plugin env) "getAuthCredentials");
      match getAuthCredentials with
      | VFun _ =>
          _ ← emit GetAuthCredentials;
          emit (AddEventListener "salesforceSessionRefresh")
      | _ => throw (TypeError "getAuthCredentials is not a function")
      end
  | _ => throw (TypeError "cordova.require is not a function")
  end.

(** [function forceOAuthUI_successHandler(forcetkClient)], closed over
    the callback of [login]; it ends in [return callback()]. *)
Definition forceOAuthUI_successHandler (callback : value) (forcetkClient : Client) : M unit :=
  _ ← emit (ConsoleLog "OAuth success!");
  _ ← write_client (TheClient forcetkClient);
  c ← the_client;
  _ ← write_client
        (TheClient (set_serviceURL c
           ((to_string (instanceUrl forcetkClient) +:+ "/services/data/")
              +:+ to_string (apiVersion forcetkClient))));
  invoke callback.

(** [this.login]: [return callback()] with a session, else the window. *)
Definition login (callback : value) : M unit :=
  c ← read client;
  if Service.client_truthy c then invoke callback else
  loginURL ← read sfLoginURL;
  key ← read consumerKey;
  callbackURL ← read oAuthCallbackURL;
  _ ← emit (NewClientUI loginURL key callbackURL callback);
  emit ClientUI_login.

End Service.

End LegacyService.

(* ===================================================================== *)
(** ** The copy of a property list                                        *)
(* ===================================================================== *)

(** The inner loop of [copy], by itself: the properties of an object are
    copied in order, each with the identities the one before left. *)
Fixpoint copy_list (n : loc) (l : props) : props * loc :=
  match l with
  | [] => ([], n)
  | (k, x) :: r =>
      let '(x', n1) := copy n x in
      let '(r', n2) := copy_list n1 r in
      ((k, x') :: r', n2)
  end.

(* ===================================================================== *)
(** ** Sample data                                                        *)
(* ===================================================================== *)

Module Samples.

Import Factory.

(** A client that keeps the list of what was done to it. *)
Definition recording_client : ForceTK :=
  {| Client := list (string * list value);
     newClient args := [("new", args)];
     setSessionToken c args := c ++ [("setSessionToken", args)];
     setRefreshToken c token := c ++ [("setRefreshToken", [token])];
     instanceUrl _ := PStr "https://na1.salesforce.com";
     proxyUrl _ := PUndefined;
     apiVersion _ := PStr "v27.0";
     set_serviceURL c url := c ++ [("serviceURL", [VPrim (PStr url)])] |}.

Definition a_client : @Client recording_client := [("new", [])].

Definition logged_in : @SFConfigT recording_client :=
  {| client := TheClient a_client; inVisualforce := PUndefined; sessionId := PUndefined;
     sfLoginURL := PStr "https://login.salesforce.com/"; consumerKey := PStr "key";
     oAuthCallbackURL := PStr "https://localhost/#/callback"; cfg_proxyUrl := PUndefined |}.

Definition logged_out : @SFConfigT recording_client := set_client logged_in NoClient.

(** A page opened from disk in a browser that has no Cordova, a page
    whose scripts left [cordova] unset, and a Cordova shell. *)
Definition page_from_disk : Service.Env :=
  {| Service.location_protocol := "file:"; Service.cordova := Undeclared;
     Service.apiVersion_global := Undeclared; Service.logToConsole := Undeclared;
     Service.oauth_plugin := undefined |}.

Definition page_cordova_unset : Service.Env :=
  {| Service.location_protocol := "https:"; Service.cordova := Declared undefined;
     Service.apiVersion_global := Undeclared; Service.logToConsole := Undeclared;
     Service.oauth_plugin := undefined |}.

Definition cordova_object : value := VObj 0 Plain [("require", VFun "cordova.require")].

Definition oauth_plugin_object : value :=
  VObj 3 Plain [("getAuthCredentials", VFun "getAuthCredentials")].

Definition cordova_shell : Service.Env :=
  {| Service.location_protocol := "file:"; Service.cordova := Declared cordova_object;
     Service.apiVersion_global := Declared (VPrim (PStr "v27.0"));
     Service.logToConsole := Declared (VFun "logToConsole");
     Service.oauth_plugin := oauth_plugin_object |}.

Definition credentials : value :=
  VObj 1 Plain [("clientId", VPrim (PStr "id")); ("loginUrl", VPrim (PStr "https://login"));
                ("accessToken", VPrim (PStr "token")); ("instanceUrl", VPrim (PStr "https://na1"));
                ("refreshToken", VPrim (PStr "refresh"))].

Definition sample_params : Params :=
  {| p_type := PStr "Opportunity"; p_fields := Some ["Name"; "Id"];
     p_where := PStr "IsWon = TRUE"; p_limit := PUndefined; p_orderBy := PStr "Name" |}.

Definition sample_params_limit : Params :=
  {| p_type := PStr "Opportunity"; p_fields := Some ["Name"; "Id"];
     p_where := PUndefined; p_limit := PNum 10; p_orderBy := PUndefined |}.

(** The same credentials as the refresh event carries them. *)
Definition credentials_event : value := VObj 2 Plain [("data", credentials)].

(** A Cordova shell in which no script declared [apiVersion]. *)
Definition cordova_shell_no_version : Service.Env :=
  {| Service.location_protocol := "file:"; Service.cordova := Declared cordova_object;
     Service.apiVersion_global := Undeclared;
     Service.logToConsole := Declared (VFun "logToConsole");
     Service.oauth_plugin := oauth_plugin_object |}.

(** A hosted page, and the configuration of an application that runs
    inside Visualforce. *)
Definition hosted_page : Service.Env :=
  {| Service.location_protocol := "https:"; Service.cordova := Undeclared;
     Service.apiVersion_global := Undeclared; Service.logToConsole := Undeclared;
     Service.oauth_plugin := undefined |}.

Definition in_visualforce : @SFConfigT recording_client :=
  {| client := NoClient; inVisualforce := PBool true; sessionId := PStr "00Dxx!AQ";
     sfLoginURL := PUndefined; consumerKey := PUndefined;
     oAuthCallbackURL := PUndefined; cfg_proxyUrl := PUndefined |}.

(** A record as the client returns it, and the same after an edit. *)
Definition opportunity : value :=
  VObj 0 Plain [("Name", VPrim (PStr "Big Opportunity"));
                ("CloseDate", VPrim (PStr "2013-03-03"));
                ("Id", VPrim (PStr "12312"))].

Definition edited_opportunity : value :=
  VObj 1 Entity [("Name", VPrim (PStr "Bigger Opportunity"));
                 ("CloseDate", VPrim (PStr "2013-03-03"));
                 ("Id", VPrim (PStr "99999"));
                 ("_orig", opportunity)].

(** A factory without a field array, and one that lists a field holding
    an object in the record below. *)
Definition params_no_fields : Params :=
  {| p_type := PStr "Opportunity"; p_fields := None;
     p_where := PUndefined; p_limit := PUndefined; p_orderBy := PUndefined |}.

Definition params_with_owner : Params :=
  {| p_type := PStr "Opportunity"; p_fields := Some ["Name"; "Owner"];
     p_where := PUndefined; p_limit := PUndefined; p_orderBy := PUndefined |}.

Definition opportunity_with_owner : value :=
  VObj 0 Plain [("Name", VPrim (PStr "Big Opportunity"));
                ("Owner", VObj 1 Plain [("Name", VPrim (PStr "Ann"))])].

(** A factory asked for a limit of 0. *)
Definition params_limit_zero : Params :=
  {| p_type := PStr "Opportunity"; p_fields := Some ["Name"];
     p_where := PUndefined; p_limit := PNum 0; p_orderBy := PUndefined |}.

(** A factory whose field list names [_orig], and an empty record. *)
Definition params_listing_orig : Params :=
  {| p_type := PStr "Opportunity"; p_fields := Some ["_orig"];
     p_where := PUndefined; p_limit := PUndefined; p_orderBy := PUndefined |}.

Definition empty_record : value := VObj 0 Plain [].

(** Answers to [create]: with an id, and with an empty id. *)
Definition created : value := VObj 0 Plain [("id", VPrim (PStr "006xx")); ("success", VPrim (PBool true))].

Definition created_empty_id : value := VObj 0 Plain [("id", VPrim (PStr ""))].

End Samples.

(* ===================================================================== *)
(** ** Facts about the JavaScript fragment                                *)
(* ===================================================================== *)

Module JSFacts.

Lemma append_assoc (a b c : string) : (a +:+ b) +:+ c = a +:+ (b +:+ c).
Proof.
  induction a as [|ch a IH]; [reflexivity|].
  change (String ch ((a +:+ b) +:+ c) = String ch (a +:+ (b +:+ c))).
  now rewrite IH.
Qed.

Lemma bind_Ok {A B : Type} (a : A) (f : A -> result B) : Ok a ≫= f = f a.
Proof. reflexivity. Qed.

Lemma bind_Throw {A B : Type} (e : exn) (f : A -> result B) : Throw e ≫= f = Throw e.
Proof. reflexivity. Qed.



Lemma given_truthy (p : prim) : Factory.given p = truthy_prim p.
Proof.
  unfold Factory.given.
  destruct p as [| |b|z| |s]; simpl; try reflexivity; apply andb_diag.
Qed.

End JSFacts.

(* ===================================================================== *)
(** ** The SOQL string                                                    *)
(* ===================================================================== *)

Module SoqlFacts.

Import Factory JSFacts Samples.

Lemma fields_join (arg : option Params) : fields arg = join ", " (fieldsArray arg).
Proof.
  unfold fields, fieldsArray. destruct (p_fields (params arg)) as [l|]; simpl; [|reflexivity].
  destruct l; reflexivity.
Qed.

Lemma where_spaced (arg : option Params) :
  where_ arg = spaced_clause "where" (p_where (params arg)).
Proof. unfold where_, spaced_clause. now destruct (given _). Qed.

Lemma orderBy_spaced (arg : option Params) :
  orderBy arg = spaced_clause "ORDER BY" (p_orderBy (params arg)).
Proof. unfold orderBy, spaced_clause. now destruct (given _). Qed.

Lemma limit_spaced (arg : option Params) :
  limit arg = if given (p_limit (params arg))
              then spaced_clause "LIMIT" (p_limit (params arg)) else "LIMIT 25".
Proof. unfold limit, spaced_clause. now destruct (given _). Qed.


(** The clauses of the query string, in their order. *)
Lemma soql_clauses (arg : option Params) :
  soql arg = "SELECT " +:+ join ", " (fieldsArray arg)
               +:+ " FROM " +:+ to_string (type arg)
               +:+ spaced_clause "where" (p_where (params arg))
               +:+ spaced_clause "ORDER BY" (p_orderBy (params arg))
               +:+ limit arg.
Proof.
  unfold soql. rewrite fields_join, where_spaced, orderBy_spaced.
  now rewrite !append_assoc.
Qed.

(** With a limit given the query string is the documented one. *)
Lemma soql_documented_with_limit (arg : option Params) :
  given (p_limit (params arg)) = true -> soql arg = documented_soql arg.
Proof.
  intros H. rewrite soql_clauses. unfold documented_soql, limit. now rewrite H.
Qed.

(** C1, for a factory without a limit: the clauses come in the
    documented order, but the LIMIT clause follows the ORDER BY clause
    with no space between them, where the documented string has one. *)
Theorem soql_default_limit_not_separated :
  soql (Some sample_params)
    = "SELECT Name, Id FROM Opportunity where IsWon = TRUE ORDER BY NameLIMIT 25"
  /\ documented_soql (Some sample_params)
     = "SELECT Name, Id FROM Opportunity where IsWon = TRUE ORDER BY Name LIMIT 25"
  /\ soql (Some sample_params) ≠ documented_soql (Some sample_params).
Proof. split; [reflexivity|]. split; [reflexivity|]. discriminate. Qed.



Example soql_sample :
  soql (Some sample_params)
  = "SELECT Name, Id FROM Opportunity where IsWon = TRUE ORDER BY NameLIMIT 25".
Proof. reflexivity. Qed.

Example soql_sample_limit :
  soql (Some sample_params_limit) = "SELECT Name, Id FROM Opportunity LIMIT 10".
Proof. reflexivity. Qed.

Example soql_no_argument : soql None = "SELECT  FROM undefinedLIMIT 25".
Proof. reflexivity. Qed.

End SoqlFacts.

(* ===================================================================== *)
(** ** The field diff                                                     *)
(* ===================================================================== *)

Module DiffFacts.

Import Factory JSFacts.

Lemma js_get_object (id : loc) (kd : kind) (ps : props) (k : string) :
  js_get (VObj id kd ps) k = Ok (reads (VObj id kd ps) k).
Proof.
  unfold reads. simpl. destruct (own_get k ps); [reflexivity|].
  destruct kd; try reflexivity. now destruct (String.eqb k "length").
Qed.

Lemma js_get_truthy (v : value) (k : string) :
  truthy v = true -> js_get v k = Ok (reads v k).
Proof.
  destruct v as [p|f|id kd ps]; intros Hv.
  - destruct p; try discriminate Hv; reflexivity.
  - reflexivity.
  - apply js_get_object.
Qed.

Lemma forEach_pure {A B : Type} (f : B -> A -> result B) (g : B -> A -> B) (l : list A) :
  (forall acc x, f acc x = Ok (g acc x)) ->
  forall acc, forEach f l acc = Ok (foldl g acc l).
Proof.
  intros Hf. induction l as [|x l IH]; intros acc; simpl; [reflexivity|].
  rewrite Hf. simpl. apply IH.
Qed.

(** What [getChangedData] computes once [_orig] is known to be truthy. *)
Lemma getChangedData_fold (arg : option Params) (id : loc) (kd : kind) (ps : props) :
  getChangedData arg (VObj id kd ps) =
    Ok (if truthy (reads (VObj id kd ps) "_orig")
        then foldl (diff_step (VObj id kd ps) (reads (VObj id kd ps) "_orig")) ∅
               (fieldsArray arg)
        else ∅).
Proof.
  unfold getChangedData. rewrite js_get_object.
  set (obj := VObj id kd ps). set (orig := reads obj "_orig").
  rewrite bind_Ok.
  destruct (truthy orig) eqn:Ho; [|reflexivity].
  change (negb true) with false. cbv iota.
  apply forEach_pure. intros acc field.
  unfold obj at 1. rewrite js_get_object. fold obj.
  rewrite (js_get_truthy _ field Ho).
  rewrite !bind_Ok. unfold diff_step. now destruct (_ && _).
Qed.

Lemma diff_step_lookup (obj orig : value) (l : list string) :
  forall (d : gmap string value) (k : string),
    foldl (diff_step obj orig) d l !! k =
      if decide (k ∈ l /\ k ≠ "Id" /\ strict_ne (reads obj k) (reads orig k) = true)
      then Some (reads obj k) else d !! k.
Proof.
  induction l as [|x l IH]; intros d k.
  - destruct (decide _) as [[H _]|_]; [|reflexivity]. now apply elem_of_nil in H.
  - cbn [foldl]. rewrite IH.
    destruct (decide (k ∈ l /\ _)) as [(Hin & Hid & Hs)|Hno].
    + rewrite decide_True; [reflexivity|]. repeat split; auto. now apply elem_of_cons; right.
    + unfold diff_step.
      destruct (decide (k = x)) as [->|Hne].
      * destruct (negb (String.eqb x "Id")) eqn:Hid; cbn [andb].
        -- apply negb_true_iff, String.eqb_neq in Hid.
           destruct (strict_ne (reads obj x) (reads orig x)) eqn:Hs.
           ++ rewrite lookup_insert_eq, decide_True; [reflexivity|].
              repeat split; auto. now apply elem_of_cons; left.
           ++ rewrite decide_False; [reflexivity|]. intros (_ & _ & H). discriminate H.
        -- apply negb_false_iff, String.eqb_eq in Hid.
           rewrite decide_False; [reflexivity|]. intros (_ & H & _). contradiction.
      * rewrite decide_False.
        -- destruct (_ && _); [|reflexivity]. now rewrite lookup_insert_ne.
        -- intros (Hin & Hid & Hs). apply Hno. repeat split; auto.
           apply elem_of_cons in Hin as [?|?]; [contradiction|assumption].
Qed.

(** C2. For every object the diff is computed and has no entry for
    [Id], whatever the current and the original [Id] are. *)
Theorem getChangedData_excludes_Id (arg : option Params) (id : loc) (kd : kind) (ps : props) :
  exists diff : gmap string value,
    getChangedData arg (VObj id kd ps) = Ok diff /\ diff !! "Id" = None.
Proof.
  eexists. split; [apply getChangedData_fold|].
  simpl. destruct (truthy _); [|apply lookup_empty].
  rewrite diff_step_lookup. case_decide as H; [|apply lookup_empty].
  now destruct H as (_ & H & _).
Qed.

(** An edited record whose [Id] was changed too: only [Name] is in the
    diff. *)
Example diff_of_edited_opportunity :
  getChangedData (Some Samples.sample_params) Samples.edited_opportunity
    = Ok {[ "Name" := VPrim (PStr "Bigger Opportunity") ]}.
Proof.
  unfold Samples.edited_opportunity. rewrite getChangedData_fold.
  vm_compute. reflexivity.
Qed.

(** The first version of the library computes the same diff, and puts
    its three clauses in the same order, one space before each. *)
Lemma legacy_getChangedData (arg : option Params) (obj : value) :
  Legacy.getChangedData arg obj = getChangedData arg obj.
Proof. reflexivity. Qed.

Lemma legacy_soql_clause_order (arg : option Params) (l : list string) :
  p_fields (params arg) = Some l ->
  Legacy.soql arg
    = Ok ("SELECT " +:+ join "," l +:+ " FROM " +:+ to_string (type arg)
            +:+ " " +:+ to_string (p_where (params arg))).
Proof.
  intros H. unfold Legacy.soql, Legacy.fields, Legacy.params, Legacy.type, Legacy.where_.
  unfold params in H. rewrite H. unfold type, params. now rewrite !append_assoc.
Qed.

End DiffFacts.

(* ===================================================================== *)
(** ** Own properties and copies                                          *)
(* ===================================================================== *)

Module ObjectFacts.

Import JSFacts.

Lemma own_get_set_eq (k : string) (v : value) (ps : props) :
  own_get k (own_set k v ps) = Some v.
Proof.
  induction ps as [|[k' v'] r IH]; simpl.
  - now rewrite String.eqb_refl.
  - destruct (String.eqb k k') eqn:E; simpl.
    + now rewrite String.eqb_refl.
    + now rewrite E.
Qed.

Lemma own_get_set_ne (k k' : string) (v : value) (ps : props) :
  k ≠ k' -> own_get k (own_set k' v ps) = own_get k ps.
Proof.
  intros Hne. induction ps as [|[k0 v0] r IH]; simpl.
  - apply String.eqb_neq in Hne. now rewrite Hne.
  - destruct (String.eqb k' k0) eqn:E; simpl.
    + apply String.eqb_eq in E. subst k0.
      apply String.eqb_neq in Hne. now rewrite Hne.
    + now rewrite IH.
Qed.

Lemma own_get_delete_eq (k : string) (ps : props) : own_get k (own_delete k ps) = None.
Proof.
  induction ps as [|[k' v'] r IH]; simpl; [reflexivity|].
  destruct (String.eqb k k') eqn:E; simpl; [exact IH|]. now rewrite E.
Qed.

Lemma own_get_delete_ne (k k' : string) (ps : props) :
  k ≠ k' -> own_get k (own_delete k' ps) = own_get k ps.
Proof.
  intros Hne. induction ps as [|[k0 v0] r IH]; simpl; [reflexivity|].
  destruct (String.eqb k' k0) eqn:E; simpl.
  - apply String.eqb_eq in E. subst k0.
    apply String.eqb_neq in Hne. now rewrite Hne.
  - now rewrite IH.
Qed.

Lemma own_get_None (k : string) (ps : props) : own_get k ps = None <-> k ∉ ps.*1.
Proof.
  induction ps as [|[k' v'] r IH]; simpl.
  - split; [intros _; apply not_elem_of_nil | reflexivity].
  - destruct (String.eqb k k') eqn:E.
    + apply String.eqb_eq in E. subst k'. split; [discriminate|].
      intros H. exfalso. apply H. now apply elem_of_cons; left.
    + apply String.eqb_neq in E. rewrite IH, not_elem_of_cons. tauto.
Qed.

Lemma copy_prim (n : loc) (p : prim) : copy n (VPrim p) = (VPrim p, n).
Proof. reflexivity. Qed.

(** After the copying loop a property of the source is a copy of the
    source's value; any other property is what the destination had. *)
Lemma copy_into_get (k : string) (src : props) :
  NoDup src.*1 ->
  forall (n : loc) (dst : props),
    match own_get k src with
    | Some v => exists m, own_get k (copy_into n src dst).1 = Some (copy m v).1
    | None => own_get k (copy_into n src dst).1 = own_get k dst
    end.
Proof.
  induction src as [|[k0 x] r IH]; intros Hnd n dst; [reflexivity|].
  cbn [fmap list_fmap fst] in Hnd. apply NoDup_cons in Hnd as [Hk0 Hnd].
  cbn [copy_into own_get]. destruct (copy n x) as [x' n1] eqn:Ecopy.
  destruct (String.eqb k k0) eqn:E.
  - apply String.eqb_eq in E. subst k0.
    apply own_get_None in Hk0. specialize (IH Hnd n1 (own_set k x' dst)).
    rewrite Hk0 in IH. rewrite IH, own_get_set_eq.
    exists n. now rewrite Ecopy.
  - apply String.eqb_neq in E. specialize (IH Hnd n1 (own_set k0 x' dst)).
    destruct (own_get k r); [exact IH|]. now rewrite IH, own_get_set_ne.
Qed.

Lemma own_get_app (k : string) (a b : props) :
  own_get k (a ++ b) = match own_get k a with Some v => Some v | None => own_get k b end.
Proof.
  induction a as [|[k' v'] r IH]; simpl; [reflexivity|].
  now destruct (String.eqb k k').
Qed.

Lemma own_set_keys (k : string) (v : value) (ps : props) :
  (own_set k v ps).*1 = if decide (k ∈ ps.*1) then ps.*1 else ps.*1 ++ [k].
Proof.
  induction ps as [|[k' v'] r IH].
  - destruct (decide (k ∈ ([] : props).*1)) as [H|_];
      [now apply elem_of_nil in H | reflexivity].
  - cbn [own_set]. destruct (String.eqb k k') eqn:E.
    + apply String.eqb_eq in E. subst k'.
      destruct (decide (k ∈ ((k, v') :: r).*1)) as [_|H]; [reflexivity|].
      exfalso. apply H. now apply elem_of_cons; left.
    + apply String.eqb_neq in E.
      change (k' :: (own_set k v r).*1
              = if decide (k ∈ k' :: r.*1) then k' :: r.*1 else k' :: (r.*1 ++ [k])).
      rewrite IH.
      destruct (decide (k ∈ r.*1)) as [Hin|Hin]; destruct (decide (k ∈ k' :: r.*1)) as [Hin'|Hin'];
        try reflexivity.
      * exfalso. apply Hin'. now apply elem_of_cons; right.
      * exfalso. apply elem_of_cons in Hin' as [?|?]; contradiction.
Qed.

Lemma own_set_NoDup (k : string) (v : value) (ps : props) :
  NoDup ps.*1 -> NoDup (own_set k v ps).*1.
Proof.
  intros H. rewrite own_set_keys. destruct (decide _) as [|Hk]; [assumption|].
  apply NoDup_app. repeat split; [assumption | | apply NoDup_singleton].
  intros x Hx Hx'. apply list_elem_of_singleton in Hx'. now subst x.
Qed.

Lemma own_delete_keys (k k' : string) (ps : props) :
  k' ∈ (own_delete k ps).*1 -> k' ∈ ps.*1.
Proof.
  induction ps as [|[k0 v0] r IH]; simpl; [trivial|].
  destruct (String.eqb k k0); cbn [fmap list_fmap fst].
  - intros H. apply elem_of_cons; right. now apply IH.
  - intros H. apply elem_of_cons in H as [->|H]; apply elem_of_cons; [now left|].
    right. now apply IH.
Qed.

Lemma own_delete_NoDup (k : string) (ps : props) :
  NoDup ps.*1 -> NoDup (own_delete k ps).*1.
Proof.
  induction ps as [|[k0 v0] r IH]; simpl; [trivial|].
  intros H. apply NoDup_cons in H as [Hk0 H].
  destruct (String.eqb k k0); cbn [fmap list_fmap fst]; [now apply IH|].
  apply NoDup_cons. split; [|now apply IH].
  intros Hin. apply Hk0. eapply own_delete_keys, Hin.
Qed.

Lemma strict_eq_prim_refl (p : prim) : p ≠ PNaN -> strict_eq (VPrim p) (VPrim p) = true.
Proof.
  intros Hp. destruct p; simpl; try apply bool_decide_eq_true; try reflexivity.
  contradiction.
Qed.

End ObjectFacts.

(* ===================================================================== *)
(** ** The entity class: construction, update, save                       *)
(* ===================================================================== *)

Module EntityFacts.

Import Factory JSFacts DiffFacts ObjectFacts.

(** C3. With the client present and [_orig] holding an object, [update]
    calls the client's [update] with the type, the object's [Id] and a
    record that has an entry for a field exactly when the field is
    listed, is not [Id] and its current value is not strictly equal to
    the one in [_orig]; the entry is the current value. *)
Theorem update_sends_diff (arg : option Params) (F : ForceTK) (cfg : SFConfigT) (c : Client)
    (id : loc) (kd : kind) (ps : props) (oid : loc) (okd : kind) (ops : props)
    (successCB failureCB : value) :
  client cfg = TheClient c ->
  reads (VObj id kd ps) "_orig" = VObj oid okd ops ->
  exists data : gmap string value,
    update arg cfg (VObj id kd ps) successCB failureCB
      = Ok {| receiver := c;
              method := Mupdate (type arg) (reads (VObj id kd ps) "Id") data;
              success := Wrapped successCB;
              failure := failureCB |}
    /\ forall (k : string) (v : value),
         data !! k = Some v <->
         (k ∈ fieldsArray arg /\ k ≠ "Id"
          /\ strict_ne (reads (VObj id kd ps) k) (reads (VObj oid okd ops) k) = true
          /\ v = reads (VObj id kd ps) k).
Proof.
  intros Hc Ho. unfold update, SFConfig_client.
  rewrite getChangedData_fold, Ho, Hc, js_get_object. cbn [truthy].
  eexists. split; [reflexivity|].
  intros k v. rewrite diff_step_lookup.
  destruct (decide _) as [(Hin & Hid & Hs)|Hno].
  - split.
    + intros [= <-]. auto.
    + intros (_ & _ & _ & ->). reflexivity.
  - rewrite lookup_empty. split; [discriminate|].
    intros (Hin & Hid & Hs & _). exfalso. apply Hno. auto.
Qed.

(** What the constructor builds from an object that is not an array. *)
Lemma construct_plain (next id : loc) (ps : props) :
  AngularForceObject next (VObj id Plain ps) =
    Ok (VObj next Entity
          (own_set "_orig" (VObj id Plain ps) (copy_into (S next) ps []).1),
        (copy_into (S next) ps []).2).
Proof.
  unfold AngularForceObject. cbn [truthy isArray enumerable].
  rewrite bind_Ok. now destruct (copy_into (S next) ps []).
Qed.

Lemma reads_own (id : loc) (kd : kind) (ps : props) (k : string) (v : value) :
  own_get k ps = Some v -> reads (VObj id kd ps) k = v.
Proof. intros H. unfold reads, js_get. now rewrite H. Qed.

Lemma reads_plain_unset (id : loc) (ps : props) (k : string) :
  own_get k ps = None -> reads (VObj id Plain ps) k = undefined.
Proof. intros H. unfold reads, js_get. now rewrite H. Qed.

Lemma reads_entity_unset (id : loc) (ps : props) (k : string) :
  own_get k ps = None -> k ∉ reserved -> reads (VObj id Entity ps) k = undefined.
Proof.
  intros H Hk. unfold reads, js_get. rewrite H.
  unfold reserved in Hk. apply not_elem_of_cons in Hk as [_ Hk].
  apply own_get_None in Hk. now rewrite Hk.
Qed.

Lemma reads_no_orig (id : loc) (kd : kind) (ps : props) :
  own_get "_orig" ps = None -> reads (VObj id kd ps) "_orig" = undefined.
Proof. intros H. unfold reads, js_get. rewrite H. now destruct kd. Qed.

(** C10, as amended.  For a record without repeated property names, when
    every listed field other than [Id] is none of [_orig], [constructor],
    [update], [destroy] and is unset in the record or holds a primitive
    other than [NaN], the diff of a freshly constructed entity is empty;
    and the diff of any object without an own [_orig] is empty. *)
Theorem fresh_entity_has_empty_diff (arg : option Params) (next id : loc) (ps : props) :
  NoDup ps.*1 ->
  (forall f, f ∈ fieldsArray arg -> f ≠ "Id" ->
     (f ∉ reserved)
     /\ (own_get f ps = None
         \/ (exists p, own_get f ps = Some (VPrim p) /\ p ≠ PNaN))) ->
  (exists inst next',
     AngularForceObject next (VObj id Plain ps) = Ok (inst, next')
     /\ getChangedData arg inst = Ok ∅)
  /\ (forall id' kd' ps',
        own_get "_orig" ps' = None -> getChangedData arg (VObj id' kd' ps') = Ok ∅).
Proof.
  intros Hnd Hf. split.
  - rewrite construct_plain. eexists _, _. split; [reflexivity|].
    rewrite getChangedData_fold.
    set (source := VObj id Plain ps).
    set (cp := (copy_into (S next) ps []).1).
    rewrite (reads_own _ _ _ "_orig" source) by apply own_get_set_eq.
    cbn [truthy source]. f_equal. apply map_eq. intros k.
    rewrite diff_step_lookup, lookup_empty, decide_False; [reflexivity|].
    intros (Hin & Hid & Hs).
    destruct (Hf k Hin Hid) as [Hres Hval].
    assert (Hk : k ≠ "_orig").
    { intros ->. apply Hres. unfold reserved. now apply elem_of_cons; left. }
    pose proof (copy_into_get k ps Hnd (S next) []) as Hcp. fold cp in Hcp.
    unfold strict_ne in Hs. apply negb_true_iff in Hs.
    destruct Hval as [Hnone | (p & Hsome & Hp)].
    + rewrite Hnone in Hcp. cbn [own_get] in Hcp.
      rewrite reads_entity_unset in Hs; [| now rewrite own_get_set_ne | assumption].
      unfold source in Hs. rewrite reads_plain_unset in Hs by assumption.
      discriminate Hs.
    + rewrite Hsome in Hcp. destruct Hcp as [m Hcp]. rewrite copy_prim in Hcp.
      rewrite (reads_own _ _ _ k (VPrim p)) in Hs by now rewrite own_get_set_ne.
      unfold source in Hs. rewrite (reads_own _ _ _ k (VPrim p)) in Hs by assumption.
      rewrite strict_eq_prim_refl in Hs by assumption. discriminate Hs.
  - intros id' kd' ps' H. rewrite getChangedData_fold, reads_no_orig by assumption.
    reflexivity.
Qed.

(** C10 as stated fails: the record [{}] has only primitive values
    ([undefined]) under the listed field [_orig], yet the diff of the
    entity built from it holds the record itself under [_orig]. *)
Lemma fresh_entity_diff_not_always_empty :
  (forall f, f ∈ fieldsArray (Some Samples.params_listing_orig) ->
     is_prim (reads Samples.empty_record f) = true)
  /\ exists inst next',
       AngularForceObject 1 Samples.empty_record = Ok (inst, next')
       /\ getChangedData (Some Samples.params_listing_orig) inst
          = Ok {[ "_orig" := Samples.empty_record ]}
       /\ getChangedData (Some Samples.params_listing_orig) inst ≠ Ok ∅.
Proof.
  split.
  - intros f Hf. apply list_elem_of_singleton in Hf. now subst f.
  - eexists _, _. split; [reflexivity|].
    assert (E : getChangedData (Some Samples.params_listing_orig)
                  (VObj 1 Entity (own_set "_orig" Samples.empty_record []))
                = Ok {[ "_orig" := Samples.empty_record ]}).
    { rewrite getChangedData_fold. cbn. now rewrite insert_empty. }
    split; [exact E|].
    change (copy_into 2 (enumerable Samples.empty_record) []).1 with (@nil (string * value)).
    rewrite E. intros H.
    assert (H' : ({[ "_orig" := Samples.empty_record ]} : gmap string value) = ∅)
      by congruence.
    apply (f_equal (fun m : gmap string value => m !! "_orig")) in H'.
    rewrite lookup_singleton_eq, lookup_empty in H'. discriminate H'.
Qed.

(** The properties a copy loop visits on an object that is not an
    array: its own, then [update] and [destroy] for an entity. *)
Lemma enumerable_get (id : loc) (kd : kind) (ps : props) (k : string) :
  k ≠ "update" -> k ≠ "destroy" ->
  own_get k (enumerable (VObj id kd ps)) = own_get k ps.
Proof.
  intros Hu Hd. destruct kd; try reflexivity.
  cbn [enumerable]. rewrite own_get_app. destruct (own_get k ps); [reflexivity|].
  apply String.eqb_neq in Hu, Hd. cbn.
  do 2 destruct (bool_decide _); cbn; rewrite ?Hu, ?Hd; reflexivity.
Qed.

Lemma enumerable_NoDup (id : loc) (kd : kind) (ps : props) :
  NoDup ps.*1 -> NoDup (enumerable (VObj id kd ps)).*1.
Proof.
  intros H. destruct kd; try assumption.
  cbn [enumerable]. rewrite fmap_app. cbn.
  destruct (bool_decide (own_get "update" ps = None)) eqn:Eu;
    destruct (bool_decide (own_get "destroy" ps = None)) eqn:Ed; cbn;
    try apply bool_decide_eq_true, own_get_None in Eu;
    try apply bool_decide_eq_true, own_get_None in Ed;
    apply NoDup_app; repeat split; try assumption.
  - intros x Hx Hx'. apply elem_of_cons in Hx' as [->|Hx']; [contradiction|].
    apply list_elem_of_singleton in Hx'. now subst x.
  - apply NoDup_cons. split; [|apply NoDup_singleton].
    intros Hx. now apply list_elem_of_singleton in Hx.
  - intros x Hx Hx'. apply list_elem_of_singleton in Hx'. now subst x.
  - apply NoDup_singleton.
  - intros x Hx Hx'. apply list_elem_of_singleton in Hx'. now subst x.
  - apply NoDup_singleton.
  - intros x Hx Hx'. now apply elem_of_nil in Hx'.
  - apply NoDup_nil_2.
Qed.

Lemma construct_object (next id : loc) (kd : kind) (ps : props) :
  kd ≠ Array ->
  AngularForceObject next (VObj id kd ps) =
    Ok (VObj next Entity
          (own_set "_orig" (VObj id kd ps)
             (copy_into (S next) (enumerable (VObj id kd ps)) []).1),
        (copy_into (S next) (enumerable (VObj id kd ps)) []).2).
Proof.
  intros Hk. unfold AngularForceObject. cbn [truthy].
  replace (isArray (VObj id kd ps)) with false by now destruct kd.
  rewrite bind_Ok. now destruct (copy_into _ _ _).
Qed.

(** C9, as amended.  When the answer to [create] is an object other
    than an array whose [id] is truthy, the entity handed to the success
    callback holds a copy of that value under [Id] (the value itself
    when it is a primitive) and has no [id]; an object other than an
    array whose [id] is falsy or unset is wrapped as it is; an array or
    a falsy answer is handed over as it is. *)
Theorem save_success_renames_id (next id : loc) (kd : kind) (ps : props)
    (v successCB : value) :
  kd ≠ Array ->
  NoDup ps.*1 ->
  own_get "id" ps = Some v ->
  truthy v = true ->
  (exists inst next' m,
     success_arg next (WrappedSaved successCB) (VObj id kd ps) = Ok (inst, next')
     /\ own_get "Id" (own inst) = Some (copy m v).1
     /\ own_get "id" (own inst) = None
     /\ (is_prim v = true -> reads inst "Id" = v))
  /\ (forall data, truthy data = true -> isArray data = false ->
        truthy (reads data "id") = false ->
        success_arg next (WrappedSaved successCB) data = AngularForceObject next data)
  /\ (forall data, truthy data = false \/ isArray data = true ->
        success_arg next (WrappedSaved successCB) data = Ok (data, next))
  /\ (forall (arg : option Params) (F : ForceTK) (cfg : SFConfigT) (obj failureCB : value)
             (call : rest_call),
        save arg cfg obj successCB failureCB = Ok call ->
        success call = WrappedSaved successCB).
Proof.
  intros Hk Hnd Hid Hv. split; [|split; [|split]]; cycle 3.
  { intros arg F cfg obj f call. unfold save, SFConfig_client.
    destruct (getNewObjectData arg obj); [|discriminate].
    rewrite bind_Ok. destruct (client cfg); try discriminate.
    rewrite bind_Ok. now intros [= <-]. }
  - unfold success_arg. cbn [truthy].
    replace (isArray (VObj id kd ps)) with false by now destruct kd.
    cbn [negb andb]. unfold rename_id.
    rewrite js_get_object, (reads_own _ _ _ "id" v Hid), bind_Ok, Hv, bind_Ok.
    set (ps' := own_delete "id" (own_set "Id" v ps)).
    rewrite construct_object by assumption.
    assert (Hnd' : NoDup (enumerable (VObj id kd ps')).*1).
    { apply enumerable_NoDup, own_delete_NoDup, own_set_NoDup, Hnd. }
    assert (HId : own_get "Id" ps' = Some v).
    { unfold ps'. rewrite own_get_delete_ne by discriminate. apply own_get_set_eq. }
    assert (Hno : own_get "id" ps' = None) by apply own_get_delete_eq.
    pose proof (copy_into_get "Id" _ Hnd' (S next) []) as HcI.
    pose proof (copy_into_get "id" _ Hnd' (S next) []) as Hci.
    rewrite enumerable_get, HId in HcI by discriminate.
    rewrite enumerable_get, Hno in Hci by discriminate.
    destruct HcI as [m HcI].
    eexists _, _, m. split; [reflexivity|]. cbn [own].
    rewrite !own_get_set_ne by discriminate.
    repeat split; [exact HcI | exact Hci |].
    intros Hp. destruct v as [p| |]; try discriminate Hp.
    apply reads_own. now rewrite own_get_set_ne by discriminate.
  - intros data Ht Ha Hf. unfold success_arg. rewrite Ht, Ha. cbn [negb andb].
    unfold rename_id. rewrite (js_get_truthy _ _ Ht), bind_Ok, Hf. apply bind_Ok.
  - intros data [Ht|Ha]; unfold success_arg.
    + now rewrite Ht.
    + rewrite Ha. now destruct (truthy data).
Qed.

(** C9 as stated fails: the answer [{id: ''}] carries a lowercase [id],
    yet the entity built from it keeps [id] and has no [Id]. *)
Lemma save_success_keeps_falsy_id :
  own_get "id" (own Samples.created_empty_id) = Some (VPrim (PStr ""))
  /\ exists inst next',
       success_arg 1 (WrappedSaved (VFun "successCB")) Samples.created_empty_id
         = Ok (inst, next')
       /\ own_get "id" (own inst) = Some (VPrim (PStr ""))
       /\ own_get "Id" (own inst) = None.
Proof. split; [reflexivity|]. eexists _, _. repeat split. Qed.

Lemma getNewObjectData_object (arg : option Params) (id : loc) (kd : kind) (ps : props) :
  getNewObjectData arg (VObj id kd ps) =
    Ok (foldl (fun (newObj : gmap string value) field =>
                 if negb (String.eqb field "Id")
                 then <[field := reads (VObj id kd ps) field]> newObj else newObj)
              ∅ (fieldsArray arg)).
Proof.
  unfold getNewObjectData. apply forEach_pure. intros acc field.
  destruct (negb _); [|reflexivity]. now rewrite js_get_object.
Qed.

Lemma substring_all (s : string) : String.substring 0 (String.length s) s = s.
Proof.
  induction s as [|c s IH]; [reflexivity|].
  cbn [String.length String.substring]. now rewrite IH.
Qed.

Lemma replace_unfold (pat rep s : string) :
  replace pat rep s =
    if String.prefix pat s
    then rep +:+ String.substring (String.length pat) (String.length s - String.length pat) s
    else match s with
         | EmptyString => EmptyString
         | String c r => String c (replace pat rep r)
         end.
Proof. destruct s; reflexivity. Qed.

Lemma prefix_append (p t : string) : String.prefix p (p +:+ t) = true.
Proof.
  induction p as [|c p IH]; [now destruct t|].
  change (String.prefix (String c p) (String c (p +:+ t)) = true).
  cbn [String.prefix]. now destruct (Ascii.ascii_dec c c).
Qed.

Lemma substring_after (p t : string) :
  String.substring (String.length p) (String.length (p +:+ t) - String.length p) (p +:+ t) = t.
Proof.
  induction p as [|c p IH].
  - change ("" +:+ t) with t. cbn [String.length]. rewrite Nat.sub_0_r. apply substring_all.
  - change (String c p +:+ t) with (String c (p +:+ t)).
    cbn [String.length Nat.sub String.substring]. exact IH.
Qed.

Lemma replace_cons (pat rep : string) (c : Ascii.ascii) (a b : string) :
  String.prefix pat (String c (a +:+ b)) = false ->
  replace pat rep (String c a +:+ b) = String c (replace pat rep (a +:+ b)).
Proof.
  intros H. change (String c a +:+ b) with (String c (a +:+ b)).
  rewrite replace_unfold. now rewrite H.
Qed.

(** The search string: the placeholder gives way to the escaped term. *)
Lemma search_string (arg : option Params) (term : string) :
  replace sosl_placeholder term (sosl arg) = sosl_prefix +:+ term +:+ sosl_suffix arg.
Proof.
  unfold sosl, sosl_prefix. generalize (sosl_suffix arg). intros t.
  set (rest := sosl_placeholder +:+ t).
  assert (Hrest : replace sosl_placeholder term rest = term +:+ t).
  { rewrite replace_unfold. unfold rest. now rewrite prefix_append, substring_after. }
  clearbody rest.
  do 6 (rewrite replace_cons by reflexivity).
  change ("" +:+ rest) with rest. now rewrite Hrest.
Qed.

(** C7. With the client present, every operation of the entity class
    ends in one call of the client ([query], [search], [retrieve],
    [create], [update], [del] in turn) whose failure callback is the
    caller's, as it was given. *)
Theorem crud_forwards_to_client (arg : option Params) (F : ForceTK)
    (escape : string -> string) (cfg : SFConfigT) (c : Client) (successCB failureCB : value) :
  client cfg = TheClient c ->
  query arg cfg successCB failureCB
    = Ok {| receiver := c; method := Mquery (soql arg);
            success := Direct successCB; failure := failureCB |}
  /\ (forall term,
        search arg escape cfg term successCB failureCB
        = Ok {| receiver := c;
                method := Msearch (sosl_prefix +:+ escape (to_string term) +:+ sosl_suffix arg);
                success := Direct successCB; failure := failureCB |})
  /\ (forall id kd ps,
        get arg cfg (VObj id kd ps) successCB failureCB
        = Ok {| receiver := c;
                method := Mretrieve (type arg) (reads (VObj id kd ps) "id") (fieldsArray arg);
                success := Wrapped successCB; failure := failureCB |})
  /\ (forall id kd ps, exists data,
        save arg cfg (VObj id kd ps) successCB failureCB
        = Ok {| receiver := c; method := Mcreate (type arg) data;
                success := WrappedSaved successCB; failure := failureCB |})
  /\ (forall id kd ps, exists data,
        update arg cfg (VObj id kd ps) successCB failureCB
        = Ok {| receiver := c;
                method := Mupdate (type arg) (reads (VObj id kd ps) "Id") data;
                success := Wrapped successCB; failure := failureCB |}
        /\ prototype_update arg cfg (VObj id kd ps) successCB failureCB
           = update arg cfg (VObj id kd ps) successCB failureCB)
  /\ (forall id kd ps,
        remove arg cfg (VObj id kd ps) successCB failureCB
        = Ok {| receiver := c; method := Mdel (type arg) (reads (VObj id kd ps) "Id");
                success := Direct successCB; failure := failureCB |}
        /\ prototype_destroy arg cfg (VObj id kd ps) successCB failureCB
           = remove arg cfg (VObj id kd ps) successCB failureCB).
Proof.
  intros Hc.
  assert (Hcl : SFConfig_client cfg = Ok c) by (unfold SFConfig_client; now rewrite Hc).
  split; [|split; [|split; [|split; [|split]]]].
  - unfold query. now rewrite Hcl.
  - intros term. unfold search. now rewrite Hcl, search_string.
  - intros id kd ps. unfold get. now rewrite Hcl, bind_Ok, js_get_object.
  - intros id kd ps. eexists. unfold save.
    rewrite getNewObjectData_object, bind_Ok, Hcl. reflexivity.
  - intros id kd ps. eexists. unfold prototype_update, update.
    rewrite getChangedData_fold, bind_Ok, Hcl, bind_Ok, js_get_object. split; reflexivity.
  - intros id kd ps. unfold prototype_destroy, remove.
    rewrite Hcl, bind_Ok, js_get_object. split; reflexivity.
Qed.

End EntityFacts.

(* ===================================================================== *)
(** ** The authentication service                                         *)
(* ===================================================================== *)

Module ServiceFacts.

Import Service JSFacts.

Section Facts.

Context {F : ForceTK}.
Variable env : Env.

(** [setCordovaLoginCred]: an undeclared [cordova] is a ReferenceError,
    a declared but falsy one is the thrown string; nothing was called
    in either case. *)
Lemma setCordovaLoginCred_undeclared (callback : value) (st : option SFConfigT) :
  cordova env = Undeclared ->
  setCordovaLoginCred env callback st = (st, [], Throw (ReferenceError "cordova")).
Proof. intros H. unfold setCordovaLoginCred. now rewrite H. Qed.

Lemma setCordovaLoginCred_falsy (callback v : value) (st : option SFConfigT) :
  cordova env = Declared v -> truthy v = false ->
  setCordovaLoginCred env callback st
    = (st, [], Throw (ThrownString "Cordova/PhoneGap not found.")).
Proof.
  intros H Hv. unfold setCordovaLoginCred. rewrite H.
  unfold mbind, M_bind, lift, read_global. now rewrite Hv.
Qed.

Lemma loginWeb_without_SFConfig (callback : value) :
  loginWeb callback None
    = (None, [], Throw (ThrownString "Must set app.SFConfig where app is your AngularJS app")).
Proof. reflexivity. Qed.

(** How the monad of the service computes. *)
Lemma run_read {A B} (p : SFConfigT -> A) (f : A -> M B) (cfg : SFConfigT) :
  (read p ≫= f) (Some cfg) = f (p cfg) (Some cfg).
Proof.
  unfold mbind, M_bind, read. now destruct (f (p cfg) (Some cfg)) as [[? ?] ?].
Qed.

Lemma run_pure {A B} (m : M A) (a : A) (f : A -> M B) (st : option SFConfigT) :
  m st = (st, [], Ok a) -> (m ≫= f) st = f a st.
Proof.
  intros H. unfold mbind, M_bind. rewrite H. now destruct (f a st) as [[? ?] ?].
Qed.

Lemma run_failed {A B} (m : M A) (e : exn) (f : A -> M B) (st : option SFConfigT) :
  m st = (st, [], Throw e) -> (m ≫= f) st = (st, [], Throw e).
Proof. intros H. unfold mbind, M_bind. now rewrite H. Qed.

(** The test [location.protocol === 'file:' && cordova] changes and
    calls nothing. *)
Lemma in_cordova_pure (st : option SFConfigT) :
  in_cordova env st = (st, [], outcome (in_cordova env) st).
Proof.
  unfold outcome, in_cordova.
  destruct (String.eqb _ _); [|reflexivity]. now destruct (cordova env).
Qed.

(** [login] with a session: the callback, when one was given, and
    nothing else. *)
Lemma login_with_session (callback : value) (cfg : SFConfigT) (c : Client) :
  client cfg = TheClient c ->
  login env callback (Some cfg) = invoke_if_given callback (Some cfg)
  /\ state_after (login env callback) (Some cfg) = Some cfg
  /\ (calls_of (login env callback) (Some cfg) = []
      \/ calls_of (login env callback) (Some cfg) = [Invoke callback]).
Proof.
  intros Hc.
  assert (E : login env callback (Some cfg) = invoke_if_given callback (Some cfg)).
  { unfold login. rewrite run_read, Hc. reflexivity. }
  split; [exact E|]. unfold state_after, calls_of. rewrite E.
  unfold invoke_if_given, invoke.
  destruct (truthy callback); [destruct callback|]; auto.
Qed.

(** [login] without a session, where reading [cordova] does not throw:
    the Cordova strategy from a [file:] page with a truthy [cordova],
    else the Visualforce strategy when [SFConfig.inVisualforce] is
    truthy, else the web strategy. *)
Lemma login_dispatch (callback : value) (cfg : SFConfigT) (b : bool) :
  client_truthy (client cfg) = false ->
  outcome (in_cordova env) (Some cfg) = Ok b ->
  login env callback (Some cfg) =
    if b then setCordovaLoginCred env callback (Some cfg)
    else if truthy_prim (inVisualforce cfg) then loginVF (Some cfg)
    else loginWeb callback (Some cfg).
Proof.
  intros Hc Hb. unfold login. rewrite run_read, Hc.
  rewrite (run_pure _ b) by (rewrite in_cordova_pure; now rewrite Hb).
  destruct b; [reflexivity|]. rewrite run_read.
  now destruct (truthy_prim (inVisualforce cfg)).
Qed.

(** When reading [cordova] throws, [login] ends there. *)
Lemma login_cordova_undeclared (callback : value) (cfg : SFConfigT) :
  client_truthy (client cfg) = false ->
  location_protocol env = "file:" ->
  cordova env = Undeclared ->
  login env callback (Some cfg) = (Some cfg, [], Throw (ReferenceError "cordova")).
Proof.
  intros Hc Hp Hg. unfold login. rewrite run_read, Hc.
  apply run_failed. unfold in_cordova. now rewrite Hp, Hg.
Qed.

(** *** What happens to [SFConfig.client] *)

Lemma state_after_bind {A B} (m : M A) (f : A -> M B) (st : option SFConfigT) :
  state_after (m ≫= f) st =
    match outcome m st with
    | Ok a => state_after (f a) (state_after m st)
    | Throw _ => state_after m st
    end.
Proof.
  unfold state_after, outcome, mbind, M_bind.
  destruct (m st) as [[st1 t1] [a|e]]; [|reflexivity].
  cbn [fst snd]. now destruct (f a st1) as [[? ?] ?].
Qed.

Lemma outcome_bind {A B} (m : M A) (f : A -> M B) (st : option SFConfigT) :
  outcome (m ≫= f) st =
    match outcome m st with
    | Ok a => outcome (f a) (state_after m st)
    | Throw e => Throw e
    end.
Proof.
  unfold state_after, outcome, mbind, M_bind.
  destruct (m st) as [[st1 t1] [a|e]]; [|reflexivity].
  cbn [fst snd]. now destruct (f a st1) as [[? ?] ?].
Qed.

Lemma keeps_bind {A B} (m : M A) (f : A -> M B) :
  keeps m -> (forall a, keeps (f a)) -> keeps (m ≫= f).
Proof.
  intros Hm Hf st. rewrite state_after_bind, Hm.
  destruct (outcome m st); [apply Hf | reflexivity].
Qed.

Lemma keeps_ret {A} (a : A) : keeps (mret a).
Proof. intros st. reflexivity. Qed.

Lemma keeps_read {A} (p : SFConfigT -> A) : keeps (read p).
Proof. intros [cfg|]; reflexivity. Qed.

Lemma keeps_emit (e : event) : keeps (emit e).
Proof. intros st. reflexivity. Qed.

Lemma keeps_lift {A} (r : result A) : keeps (lift r).
Proof. intros st. reflexivity. Qed.

Lemma keeps_throw {A} (e : exn) : keeps (@throw F A e).
Proof. intros st. reflexivity. Qed.

Lemma evolves_refl (st : option SFConfigT) : evolves st st.
Proof. now left. Qed.

Lemma evolves_trans (a b c : option SFConfigT) : evolves a b -> evolves b c -> evolves a c.
Proof.
  intros [->|(cfg & x & -> & ->)] [->|(cfg' & y & E & ->)].
  - now left.
  - right. eauto.
  - right. eauto.
  - injection E as <-. right. exists cfg, y. split; reflexivity.
Qed.

Lemma keeps_populates {A} (m : M A) : keeps m -> populates_at_most m.
Proof. intros H st. rewrite H. apply evolves_refl. Qed.

Lemma populates_bind {A B} (m : M A) (f : A -> M B) :
  populates_at_most m -> (forall a, populates_at_most (f a)) -> populates_at_most (m ≫= f).
Proof.
  intros Hm Hf st. rewrite state_after_bind.
  destruct (outcome m st); [|apply Hm].
  eapply evolves_trans; [apply Hm | apply Hf].
Qed.

Lemma populates_write (c : Client) : populates_at_most (write_client (TheClient c)).
Proof. intros [cfg|]; [right; eauto | now left]. Qed.

Ltac keeps_tac :=
  repeat first
    [ apply keeps_ret | apply keeps_read | apply keeps_emit | apply keeps_lift
    | apply keeps_throw
    | apply keeps_bind; [|intros ?]
    | match goal with
      | |- keeps (if ?b then _ else _) => destruct b
      | |- keeps (match ?x with _ => _ end) => destruct x
      end ].

Lemma keeps_invoke_if_given (callback : value) : keeps (invoke_if_given callback).
Proof. unfold invoke_if_given, invoke. keeps_tac. Qed.

Lemma keeps_the_client : keeps the_client.
Proof. unfold the_client. keeps_tac. Qed.

Lemma keeps_getForceTKClientUI : keeps getForceTKClientUI.
Proof. unfold getForceTKClientUI. keeps_tac. Qed.

Lemma keeps_authenticated : keeps authenticated.
Proof. unfold authenticated. keeps_tac. Qed.

Lemma keeps_setCordovaLoginCred (callback : value) : keeps (setCordovaLoginCred env callback).
Proof. unfold setCordovaLoginCred. keeps_tac. Qed.

Lemma keeps_getAuthCredentialsError (error : prim) : keeps (getAuthCredentialsError env error).
Proof. unfold getAuthCredentialsError. keeps_tac. Qed.

Lemma keeps_loginWeb (callback : value) : keeps (loginWeb callback).
Proof.
  assert (K : keeps (c ← read client;
                     if client_truthy c then invoke_if_given callback else
                     ftkClientUI ← getForceTKClientUI;
                     emit (ClientUI_login ftkClientUI callback))).
  { apply keeps_bind; [apply keeps_read|]. intros c.
    destruct (client_truthy c); [apply keeps_invoke_if_given|].
    apply keeps_bind; [apply keeps_getForceTKClientUI|]. intros ?. apply keeps_emit. }
  intros [cfg|]; [exact (K (Some cfg)) | reflexivity].
Qed.

Lemma keeps_oauthCallback (callbackString : value) : keeps (oauthCallback callbackString).
Proof.
  unfold oauthCallback. apply keeps_bind; [apply keeps_getForceTKClientUI|].
  intros ?. apply keeps_emit.
Qed.

Lemma keeps_in_cordova : keeps (in_cordova env).
Proof. unfold in_cordova. keeps_tac. Qed.

Lemma keeps_entity (arg : option Factory.Params) (escape : string -> string)
    (op : Factory.entity_operation) :
  keeps (entity arg escape op).
Proof. unfold entity. keeps_tac. Qed.

Lemma populates_loginVF : populates_at_most loginVF.
Proof.
  unfold loginVF.
  repeat first
    [ apply populates_write
    | apply keeps_populates; first [apply keeps_emit | apply keeps_the_client | apply keeps_read]
    | apply populates_bind; [|intros ?] ].
Qed.

Lemma populates_forceOAuthUI_successHandler (forcetkClient : Client) :
  populates_at_most (forceOAuthUI_successHandler forcetkClient).
Proof.
  unfold forceOAuthUI_successHandler.
  repeat first
    [ apply populates_write
    | apply keeps_populates; first [apply keeps_emit | apply keeps_the_client | apply keeps_read]
    | apply populates_bind; [|intros ?] ].
Qed.

Lemma populates_salesforceSessionRefreshed (callback creds : value) :
  populates_at_most (salesforceSessionRefreshed env callback creds).
Proof.
  unfold salesforceSessionRefreshed, invoke.
  repeat first
    [ apply populates_write
    | apply keeps_populates;
      first [apply keeps_emit | apply keeps_the_client | apply keeps_read | apply keeps_lift
            | apply keeps_throw]
    | apply populates_bind; [|intros ?]
    | match goal with
      | |- populates_at_most (match ?x with _ => _ end) => destruct x
      end ].
Qed.

Lemma populates_login (callback : value) : populates_at_most (login env callback).
Proof.
  unfold login. apply populates_bind; [apply keeps_populates, keeps_read|]. intros c.
  destruct (client_truthy c); [apply keeps_populates, keeps_invoke_if_given|].
  apply populates_bind; [apply keeps_populates, keeps_in_cordova|]. intros b.
  destruct b; [apply keeps_populates, keeps_setCordovaLoginCred|].
  apply populates_bind; [apply keeps_populates, keeps_read|]. intros vf.
  destruct (truthy_prim vf); [apply populates_loginVF | apply keeps_populates, keeps_loginWeb].
Qed.

(** [logout]: nothing without a client; with one, the client is handed
    to a [ClientUI] for logout and [SFConfig.client] becomes [null]. *)
Lemma logout_without_client (callback : value) (st : option SFConfigT) :
  client_truthy (client_of st) = false -> state_after (logout callback) st = st.
Proof.
  intros H. destruct st as [[cl ? ? ? ? ? ?]|]; [|reflexivity].
  cbn in H. destruct cl; [reflexivity | reflexivity | discriminate H].
Qed.

Lemma logout_with_client (callback : value) (cfg : SFConfigT) (c : Client) :
  client cfg = TheClient c ->
  state_after (logout callback) (Some cfg) = Some (set_client cfg NullClient)
  /\ outcome (logout callback) (Some cfg) = Ok tt
  /\ exists ui, calls_of (logout callback) (Some cfg)
                = [NewClientUI ui;
                   ClientUI_logout
                     {| ui_loginURL := ui_loginURL ui; ui_consumerKey := ui_consumerKey ui;
                        ui_callbackURL := ui_callbackURL ui; ui_success := ui_success ui;
                        ui_error := ui_error ui; ui_proxyUrl := ui_proxyUrl ui;
                        ui_client := Some c; ui_instanceUrl := instanceUrl c;
                        ui_clientProxyUrl := proxyUrl c |} callback].
Proof.
  intros H. destruct cfg as [cl ? ? ? ? ? ?]. cbn in H. subst cl.
  split; [reflexivity|]. split; [reflexivity|]. eexists. reflexivity.
Qed.

(** *** A strategy that succeeds leaves a client *)

Lemma evolves_has_client (st st' : option SFConfigT) :
  evolves st st' -> has_client st -> has_client st'.
Proof.
  intros [->|(cfg & c & -> & ->)] H; [assumption|]. exists c. reflexivity.
Qed.

Lemma lift_bind_Ok {A B} (r : result A) (f : A -> M B) (st : option SFConfigT) (b : B) :
  outcome (lift r ≫= f) st = Ok b ->
  exists a, r = Ok a /\ outcome (f a) st = Ok b
            /\ state_after (lift r ≫= f) st = state_after (f a) st.
Proof.
  destruct r as [a|e]; [|discriminate]. rewrite outcome_bind, state_after_bind.
  intros H. exists a. auto.
Qed.

Lemma emit_bind_Ok {B} (e : event) (f : unit -> M B) (st : option SFConfigT) :
  outcome (emit e ≫= f) st = outcome (f tt) st
  /\ state_after (emit e ≫= f) st = state_after (f tt) st.
Proof. rewrite outcome_bind, state_after_bind. split; reflexivity. Qed.

Lemma write_bind_Ok {B} (c : client_ref) (f : unit -> M B) (st : option SFConfigT) (b : B) :
  outcome (write_client c ≫= f) st = Ok b ->
  exists cfg, st = Some cfg /\ outcome (f tt) (Some (set_client cfg c)) = Ok b
              /\ state_after (write_client c ≫= f) st
                 = state_after (f tt) (Some (set_client cfg c)).
Proof.
  destruct st as [cfg|]; [|discriminate]. rewrite outcome_bind, state_after_bind.
  intros H. exists cfg. auto.
Qed.

Lemma loginVF_populates (cfg : SFConfigT) :
  state_after loginVF (Some cfg)
    = Some (set_client cfg (TheClient (setSessionToken (newClient []) [VPrim (sessionId cfg)])))
  /\ outcome loginVF (Some cfg) = Ok tt
  /\ calls_of loginVF (Some cfg) = [NewClient []; SetSessionToken [VPrim (sessionId cfg)]].
Proof. destruct cfg. repeat split. Qed.

Lemma forceOAuthUI_successHandler_populates (cfg : SFConfigT) (forcetkClient : Client) :
  state_after (forceOAuthUI_successHandler forcetkClient) (Some cfg)
    = Some (set_client cfg
              (TheClient (set_serviceURL forcetkClient
                 ((to_string (instanceUrl forcetkClient) +:+ "/services/data/")
                    +:+ to_string (apiVersion forcetkClient)))))
  /\ outcome (forceOAuthUI_successHandler forcetkClient) (Some cfg) = Ok tt.
Proof. destruct cfg. repeat split. Qed.

Lemma salesforceSessionRefreshed_populates (callback creds : value) (st : option SFConfigT) :
  outcome (salesforceSessionRefreshed env callback creds) st = Ok tt ->
  has_client (state_after (salesforceSessionRefreshed env callback creds) st).
Proof.
  unfold salesforceSessionRefreshed. intros H.
  apply lift_bind_Ok in H as (data & _ & H & ->).
  apply lift_bind_Ok in H as (clientId & _ & H & ->).
  apply lift_bind_Ok in H as (loginUrl & _ & H & ->).
  rewrite (proj1 (emit_bind_Ok _ _ _)) in H. rewrite (proj2 (emit_bind_Ok _ _ _)).
  apply write_bind_Ok in H as (cfg & -> & H & ->).
  match goal with |- has_client (state_after ?tail ?st) =>
    assert (Htail : populates_at_most tail);
    [|apply (evolves_has_client st _ (Htail st)); eexists; reflexivity]
  end.
  unfold invoke.
  repeat first
    [ apply populates_write
    | apply keeps_populates;
      first [apply keeps_emit | apply keeps_the_client | apply keeps_read | apply keeps_lift
            | apply keeps_throw]
    | apply populates_bind; [|intros ?]
    | match goal with
      | |- populates_at_most (match ?x with _ => _ end) => destruct x
      end ].
Qed.

(** *** Which operations assign to [SFConfig.client] *)

Lemma js_get_readable (v : value) (k : string) :
  nullish v = false -> js_get v k = Ok (reads v k).
Proof.
  intros H. unfold reads. destruct (js_get v k) as [x|e] eqn:E; [reflexivity|].
  destruct v as [[]| |i kd ps]; try discriminate H; try discriminate E.
  cbn in E. destruct (own_get k ps); [discriminate E|].
  destruct kd; try discriminate E. now destruct (String.eqb k "length").
Qed.

Lemma truthy_not_nullish (v : value) : truthy v = true -> nullish v = false.
Proof. destruct v as [[]| |]; cbn; congruence. Qed.

Lemma state_after_lift {A B} (a : A) (f : A -> M B) (st : option SFConfigT) :
  state_after (lift (Ok a) ≫= f) st = state_after (f a) st.
Proof. now rewrite state_after_bind. Qed.

Lemma state_after_write {B} (c : client_ref) (f : unit -> M B) (cfg : SFConfigT) :
  state_after (write_client c ≫= f) (Some cfg) = state_after (f tt) (Some (set_client cfg c)).
Proof. now rewrite state_after_bind. Qed.

Lemma evolves_from_client (cfg : SFConfigT) (c : Client) (st : option SFConfigT) :
  evolves (Some (set_client cfg (TheClient c))) st ->
  exists c', st = Some (set_client cfg (TheClient c')).
Proof.
  intros [->|(cfg' & c' & E & ->)]; [now exists c|].
  injection E as <-. exists c'. now destruct cfg.
Qed.

Lemma evolves_from_nothing (st : option SFConfigT) : evolves None st -> st = None.
Proof. intros [->|(cfg & c & E & _)]; [reflexivity | discriminate E]. Qed.

(** The credentials handler given credentials that can be read: a
    client is stored, however the handler ends. *)
Lemma salesforceSessionRefreshed_stores (callback creds : value) (cfg : SFConfigT) :
  nullish creds = false ->
  exists c, state_after (salesforceSessionRefreshed env callback creds) (Some cfg)
            = Some (set_client cfg (TheClient c)).
Proof.
  intros Hn. unfold salesforceSessionRefreshed.
  rewrite (js_get_readable creds "data" Hn), state_after_lift.
  assert (Hd : nullish (if truthy (reads creds "data") then reads creds "data" else creds)
               = false).
  { destruct (truthy (reads creds "data")) eqn:Ht; [now apply truthy_not_nullish | exact Hn]. }
  rewrite (js_get_readable _ "clientId" Hd), state_after_lift.
  rewrite (js_get_readable _ "loginUrl" Hd), state_after_lift.
  rewrite (proj2 (emit_bind_Ok _ _ _)), state_after_write.
  eapply evolves_from_client.
  match goal with |- evolves _ (state_after ?tail ?st) =>
    assert (Htail : populates_at_most tail); [|apply (Htail st)]
  end.
  unfold invoke.
  repeat first
    [ apply populates_write
    | apply keeps_populates;
      first [apply keeps_emit | apply keeps_the_client | apply keeps_read | apply keeps_lift
            | apply keeps_throw]
    | apply populates_bind; [|intros ?]
    | match goal with
      | |- populates_at_most (match ?x with _ => _ end) => destruct x
      end ].
Qed.

(** The credentials handler given [undefined] or [null] throws at
    [creds.data]. *)
Lemma salesforceSessionRefreshed_unreadable (callback creds : value) (st : option SFConfigT) :
  nullish creds = true ->
  salesforceSessionRefreshed env callback creds st
    = (st, [], Throw (TypeError "Cannot read property data")).
Proof. intros Hn. destruct creds as [[]| |]; try discriminate Hn; reflexivity. Qed.

Lemma in_cordova_outcome (st : option SFConfigT) :
  outcome (in_cordova env) st =
    if String.eqb (location_protocol env) "file:"
    then match cordova env with
         | Declared c => Ok (truthy c)
         | Undeclared => Throw (ReferenceError "cordova")
         end
    else Ok false.
Proof.
  unfold outcome, in_cordova.
  destruct (String.eqb _ _); [|reflexivity]. now destruct (cordova env).
Qed.

(** [login] is [loginVF] where it selects the Visualforce strategy, and
    leaves [SFConfig] alone elsewhere. *)
Lemma login_selects (callback : value) (cfg : SFConfigT) :
  (selects_Visualforce env cfg = true ->
   login env callback (Some cfg) = loginVF (Some cfg))
  /\ (selects_Visualforce env cfg = false ->
      state_after (login env callback) (Some cfg) = Some cfg).
Proof.
  unfold selects_Visualforce.
  destruct (client_truthy (client cfg)) eqn:Hc.
  { split; [discriminate|]. intros _.
    destruct (client cfg) as [| |c] eqn:E; try discriminate Hc.
    apply (login_with_session callback cfg c E). }
  cbn [negb andb].
  pose proof (in_cordova_outcome (Some cfg)) as Hb.
  destruct (String.eqb (location_protocol env) "file:") eqn:Hp.
  - destruct (cordova env) as [|c] eqn:Hg.
    + split; [discriminate|]. intros _. unfold state_after.
      rewrite login_cordova_undeclared; [reflexivity | exact Hc | now apply String.eqb_eq | exact Hg].
    + destruct (truthy c); cbn [negb andb].
      * split; [discriminate|]. intros _. unfold state_after.
        rewrite (login_dispatch callback cfg true Hc Hb). apply keeps_setCordovaLoginCred.
      * unfold state_after. rewrite (login_dispatch callback cfg false Hc Hb).
        destruct (truthy_prim (inVisualforce cfg)); split; try discriminate; intros _;
          [reflexivity | exact (keeps_loginWeb callback (Some cfg))].
  - cbn [andb]. unfold state_after. rewrite (login_dispatch callback cfg false Hc Hb).
    destruct (truthy_prim (inVisualforce cfg)); split; try discriminate; intros _;
      [reflexivity | exact (keeps_loginWeb callback (Some cfg))].
Qed.

(** An operation that stores a client leaves [SFConfig] with one, and
    otherwise as it was. *)
Lemma run_stores (arg : option Factory.Params) (escape : string -> string)
    (op : operation) (cfg : SFConfigT) :
  stores_client env op cfg = true ->
  exists c, state_after (run env arg escape op) (Some cfg) = Some (set_client cfg (TheClient c)).
Proof.
  destruct op as [eop| |cb|cb|cb| |cbs|cb|call]; try discriminate; cbn [stores_client run].
  - intros H. unfold state_after. rewrite (proj1 (login_selects cb cfg) H).
    eexists. apply (proj1 (loginVF_populates cfg)).
  - intros _. eexists. apply (proj1 (loginVF_populates cfg)).
  - destruct call as [cb creds|e|[| |c]|]; try discriminate; cbn [run_handler].
    + intros H. apply salesforceSessionRefreshed_stores. now destruct (nullish creds).
    + intros _. eexists. apply (proj1 (forceOAuthUI_successHandler_populates cfg c)).
Qed.

Lemma run_unsets (arg : option Factory.Params) (escape : string -> string)
    (op : operation) (cfg : SFConfigT) (r : client_ref) :
  unsets_client op cfg = Some r ->
  state_after (run env arg escape op) (Some cfg) = Some (set_client cfg r).
Proof.
  destruct op as [eop| |cb|cb|cb| |cbs|cb|call]; try discriminate; cbn [unsets_client run].
  - destruct (client cfg) as [| |c] eqn:E; try discriminate. intros [= <-].
    apply (proj1 (logout_with_client cb cfg c E)).
  - destruct call as [cb creds|e|[| |c]|]; try discriminate; intros [= <-]; reflexivity.
Qed.

Lemma run_keeps (arg : option Factory.Params) (escape : string -> string)
    (op : operation) (cfg : SFConfigT) :
  stores_client env op cfg = false -> unsets_client op cfg = None ->
  state_after (run env arg escape op) (Some cfg) = Some cfg.
Proof.
  destruct op as [eop| |cb|cb|cb| |cbs|cb|call]; cbn [stores_client unsets_client run];
    try discriminate.
  - intros _ _. apply keeps_entity.
  - intros _ _. apply keeps_bind; [apply keeps_authenticated | intros ?; apply keeps_ret].
  - intros H _. apply (proj2 (login_selects cb cfg) H).
  - intros _ _. apply keeps_setCordovaLoginCred.
  - intros _ _. apply keeps_loginWeb.
  - intros _ _. apply keeps_oauthCallback.
  - intros _ H. apply logout_without_client. cbn [client_of].
    now destruct (client_truthy (client cfg)).
  - destruct call as [cb creds|e|[| |c]|]; try discriminate; cbn [run_handler].
    + intros H _. unfold state_after.
      rewrite salesforceSessionRefreshed_unreadable; [reflexivity|].
      now destruct (nullish creds).
    + intros _ _. apply keeps_getAuthCredentialsError.
    + intros _ _. apply keeps_ret.
Qed.

Lemma run_without_SFConfig (arg : option Factory.Params) (escape : string -> string)
    (op : operation) :
  state_after (run env arg escape op) None = None.
Proof.
  destruct op as [eop| |cb|cb|cb| |cbs|cb|call]; cbn [run].
  - apply keeps_entity.
  - apply keeps_bind; [apply keeps_authenticated | intros ?; apply keeps_ret].
  - apply evolves_from_nothing, populates_login.
  - apply keeps_setCordovaLoginCred.
  - apply keeps_loginWeb.
  - apply evolves_from_nothing, populates_loginVF.
  - apply keeps_oauthCallback.
  - now apply logout_without_client.
  - destruct call as [cb creds|e|[| |c]|]; cbn [run_handler].
    + apply evolves_from_nothing, populates_salesforceSessionRefreshed.
    + apply keeps_getAuthCredentialsError.
    + reflexivity.
    + reflexivity.
    + apply evolves_from_nothing, populates_forceOAuthUI_successHandler.
    + apply keeps_ret.
Qed.

(** C5, as amended.  The client is absent in the configuration the
    application starts with.  [SFConfig.client] is set to a client
    exactly by the operations that reach an assignment of one
    ([stores_client]: [loginVF], [login] where it selects the
    Visualforce strategy, the credentials handler of the Cordova
    strategy given credentials it can read, the success handler of the
    OAuth window given a client); it is set to [null] by [logout] with a
    client present, and the success handler given [undefined] or [null]
    stores that; every other operation of the service or of an entity
    class leaves [SFConfig] as it was, and nothing happens to an absent
    [SFConfig].  A handler of a strategy that completes has stored a
    client, and so have [loginVF] and a [login] that selects it, which
    always complete; the converse is not stated, since the credentials
    handler stores its client before the statements that can still
    throw. *)
Theorem client_lifecycle (arg : option Factory.Params) (escape : string -> string) :
  (forall flag session loginURL key callbackURL proxy,
     client (SFConfig_at_start flag session loginURL key callbackURL proxy) = NoClient)
  /\ (forall op, state_after (run env arg escape op) None = None)
  /\ (forall op cfg,
        stores_client env op cfg = true ->
        exists c, state_after (run env arg escape op) (Some cfg)
                  = Some (set_client cfg (TheClient c)))
  /\ (forall op cfg r,
        stores_client env op cfg = false -> unsets_client op cfg = Some r ->
        state_after (run env arg escape op) (Some cfg) = Some (set_client cfg r))
  /\ (forall op cfg,
        stores_client env op cfg = false -> unsets_client op cfg = None ->
        state_after (run env arg escape op) (Some cfg) = Some cfg)
  /\ (forall callback creds cfg,
        outcome (run env arg escape (Handler (Call_salesforceSessionRefreshed callback creds)))
          (Some cfg) = Ok tt ->
        stores_client env (Handler (Call_salesforceSessionRefreshed callback creds)) cfg = true)
  /\ (forall forcetkClient cfg,
        outcome (run env arg escape (Handler (Call_forceOAuthUI_successHandler forcetkClient)))
          (Some cfg) = Ok tt ->
        stores_client env (Handler (Call_forceOAuthUI_successHandler forcetkClient)) cfg = true)
  /\ (forall cfg, outcome (run env arg escape LoginVF) (Some cfg) = Ok tt)
  /\ (forall callback cfg,
        selects_Visualforce env cfg = true ->
        outcome (run env arg escape (Login callback)) (Some cfg) = Ok tt)
  /\ (forall callback cfg c,
        client cfg = TheClient c ->
        client_of (state_after (run env arg escape (Logout callback)) (Some cfg)) = NullClient).
Proof.
  split; [reflexivity|].
  split; [intros op; apply run_without_SFConfig|].
  split; [intros op cfg; apply run_stores|].
  split; [intros op cfg r _; apply run_unsets|].
  split; [intros op cfg; apply run_keeps|].
  split; [|split; [|split; [|split]]].
  - intros callback creds cfg. cbn [run run_handler stores_client].
    destruct (nullish creds) eqn:Hn; [|reflexivity].
    unfold outcome. rewrite salesforceSessionRefreshed_unreadable by exact Hn. discriminate.
  - intros [| |c] cfg; cbn [stores_client]; try reflexivity; discriminate.
  - intros cfg. apply (proj1 (proj2 (loginVF_populates cfg))).
  - intros callback cfg H. cbn [run]. unfold outcome.
    rewrite (proj1 (login_selects callback cfg) H).
    apply (proj1 (proj2 (loginVF_populates cfg))).
  - intros callback cfg c Hc. cbn [run].
    now rewrite (proj1 (logout_with_client callback cfg c Hc)).
Qed.

End Facts.

(** C5 as stated fails: in a Cordova shell where no script declared
    [apiVersion], the credentials handler called with credentials ends
    in a ReferenceError, so the strategy did not succeed, and yet
    [SFConfig.client], absent before, holds a client afterwards. *)
Lemma client_populated_by_failing_login :
  client Samples.logged_out = NoClient
  /\ outcome (run Samples.cordova_shell_no_version None (fun s => s)
                (Handler (Call_salesforceSessionRefreshed (VFun "callback")
                            Samples.credentials)))
       (Some Samples.logged_out)
     = Throw (ReferenceError "apiVersion")
  /\ has_client
       (state_after (run Samples.cordova_shell_no_version None (fun s => s)
                       (Handler (Call_salesforceSessionRefreshed (VFun "callback")
                                   Samples.credentials)))
          (Some Samples.logged_out)).
Proof. split; [reflexivity|]. split; [reflexivity|]. eexists. reflexivity. Qed.

(** C4, at a page opened from disk in a browser without Cordova and with
    no session: [login] ends in the ReferenceError raised by reading
    [cordova], before any strategy has called anything, where the web
    strategy would have opened the login window. *)
Theorem login_from_disk_without_cordova :
  login Samples.page_from_disk (VFun "callback") (Some Samples.logged_out)
    = (Some Samples.logged_out, [], Throw (ReferenceError "cordova"))
  /\ outcome (loginWeb (VFun "callback")) (Some Samples.logged_out) = Ok tt
  /\ exists ui, calls_of (loginWeb (VFun "callback")) (Some Samples.logged_out)
                = [NewClientUI ui; ClientUI_login ui (VFun "callback")].
Proof. split; [reflexivity|]. split; [reflexivity|]. eexists. reflexivity. Qed.

(** C6, at the same page: [setCordovaLoginCred] throws the
    ReferenceError of the unresolvable [cordova], not the string; the
    string is what a declared but unset [cordova] gives. *)
Theorem setCordovaLoginCred_from_disk_without_cordova :
  setCordovaLoginCred Samples.page_from_disk (VFun "callback") (Some Samples.logged_out)
    = (Some Samples.logged_out, [], Throw (ReferenceError "cordova"))
  /\ setCordovaLoginCred Samples.page_cordova_unset (VFun "callback") (Some Samples.logged_out)
     = (Some Samples.logged_out, [], Throw (ThrownString "Cordova/PhoneGap not found.")).
Proof. split; reflexivity. Qed.

End ServiceFacts.

(* ===================================================================== *)
(** ** The theorems at the sample data                                    *)
(* ===================================================================== *)

Module Instances.

Import Factory Service Samples.


Lemma update_sends_diff_witness :
  exists data : gmap string value,
    update (Some sample_params) logged_in edited_opportunity (VFun "successCB") (VFun "failureCB")
      = Ok {| receiver := a_client;
              method := Mupdate (PStr "Opportunity") (VPrim (PStr "99999")) data;
              success := Wrapped (VFun "successCB");
              failure := VFun "failureCB" |}
    /\ forall (k : string) (v : value),
         data !! k = Some v <->
         (k ∈ ["Name"; "Id"] /\ k ≠ "Id"
          /\ strict_ne (reads edited_opportunity k) (reads opportunity k) = true
          /\ v = reads edited_opportunity k).
Proof.
  apply (EntityFacts.update_sends_diff (Some sample_params) recording_client logged_in a_client
           1 Entity (own edited_opportunity) 0 Plain (own opportunity)
           (VFun "successCB") (VFun "failureCB")); reflexivity.
Defined.

Lemma crud_forwards_to_client_witness :
  query (Some sample_params) logged_in (VFun "successCB") (VFun "failureCB")
    = Ok {| receiver := a_client; method := Mquery (soql (Some sample_params));
            success := Direct (VFun "successCB"); failure := VFun "failureCB" |}.
Proof.
  apply (EntityFacts.crud_forwards_to_client (Some sample_params) recording_client
           (fun s => s) logged_in a_client (VFun "successCB") (VFun "failureCB")).
  reflexivity.
Defined.

Lemma save_success_renames_id_witness :
  exists inst next' m,
    success_arg 1 (WrappedSaved (VFun "successCB")) created = Ok (inst, next')
    /\ own_get "Id" (own inst) = Some (copy m (VPrim (PStr "006xx"))).1
    /\ own_get "id" (own inst) = None
    /\ (is_prim (VPrim (PStr "006xx")) = true -> reads inst "Id" = VPrim (PStr "006xx")).
Proof.
  apply (EntityFacts.save_success_renames_id 1 0 Plain (own created) (VPrim (PStr "006xx"))
           (VFun "successCB")).
  - discriminate.
  - compute_done.
  - reflexivity.
  - reflexivity.
Defined.

Lemma fresh_entity_has_empty_diff_witness :
  exists inst next',
    AngularForceObject 1 opportunity = Ok (inst, next')
    /\ getChangedData (Some sample_params) inst = Ok ∅.
Proof.
  apply (EntityFacts.fresh_entity_has_empty_diff (Some sample_params) 1 0 (own opportunity)).
  - compute_done.
  - intros f Hf Hid. vm_compute in Hf.
    apply elem_of_cons in Hf as [->|Hf]; [|apply list_elem_of_singleton in Hf; contradiction].
    split; [compute_done|]. right. eexists. split; [reflexivity|discriminate].
Defined.

Lemma client_lifecycle_witness :
  (exists c, state_after (run hosted_page None (fun s => s) (Login (VFun "callback")))
               (Some in_visualforce)
             = Some (set_client in_visualforce (TheClient c)))
  /\ state_after (run cordova_shell None (fun s => s)
                    (Handler (Call_forceOAuthUI_successHandler NoClient))) (Some logged_in)
     = Some (set_client logged_in NoClient)
  /\ state_after (run cordova_shell None (fun s => s) (LoginWeb (VFun "callback")))
       (Some logged_out)
     = Some logged_out
  /\ stores_client cordova_shell_no_version
       (Handler (Call_salesforceSessionRefreshed (VFun "callback") credentials))
       logged_out = true
  /\ client_of (state_after (run cordova_shell None (fun s => s) (Logout (VFun "callback")))
                  (Some logged_in)) = NullClient.
Proof.
  destruct (ServiceFacts.client_lifecycle (F := recording_client) hosted_page None (fun s => s))
    as (_ & _ & Hstores & _).
  destruct (ServiceFacts.client_lifecycle (F := recording_client) cordova_shell None (fun s => s))
    as (_ & _ & _ & Hunsets & Hkeeps & _ & _ & _ & _ & Hlogout).
  split; [|split; [|split; [|split]]].
  - apply (Hstores (Login (VFun "callback")) in_visualforce). reflexivity.
  - apply (Hunsets (Handler (Call_forceOAuthUI_successHandler NoClient)) logged_in NoClient);
      reflexivity.
  - apply (Hkeeps (LoginWeb (VFun "callback")) logged_out); reflexivity.
  - reflexivity.
  - apply (Hlogout (VFun "callback") logged_in a_client). reflexivity.
Defined.

End Instances.


(* ===================================================================== *)
(** ** More on the authentication service                                 *)
(* ===================================================================== *)

Module ServiceMore.

Import Service JSFacts DiffFacts ServiceFacts.

Section Facts.

Context {F : ForceTK}.
Variable env : Env.

(** Running one step and then the rest. *)
Lemma then_lift {A B} (r : result A) (f : A -> M B) (st : option SFConfigT) :
  (lift r ≫= f) st = match r with Ok a => f a st | Throw e => (st, [], Throw e) end.
Proof.
  destruct r as [a|e]; [|reflexivity].
  unfold mbind, M_bind, lift. now destruct (f a st) as [[? ?] ?].
Qed.

Lemma then_emit {B} (e : event) (f : unit -> M B) (st s : option SFConfigT)
    (t : list event) (r : result B) :
  f tt st = (s, t, r) -> (emit e ≫= f) st = (s, e :: t, r).
Proof. intros H. unfold mbind, M_bind, emit. now rewrite H. Qed.

Lemma then_write {B} (c : client_ref) (f : unit -> M B) (cfg : SFConfigT) :
  (write_client c ≫= f) (Some cfg) = f tt (Some (set_client cfg c)).
Proof.
  unfold mbind, M_bind, write_client.
  now destruct (f tt (Some (set_client cfg c))) as [[? ?] ?].
Qed.

Lemma then_client {B} (f : Client -> M B) (cfg : SFConfigT) (c : Client) :
  client cfg = TheClient c -> (the_client ≫= f) (Some cfg) = f c (Some cfg).
Proof.
  intros H. unfold the_client, mbind, M_bind, read. cbv beta iota. rewrite H.
  unfold mret, M_ret. now destruct (f c (Some cfg)) as [[? ?] ?].
Qed.

Lemma then_client_set {B} (f : Client -> M B) (cfg : SFConfigT) (c : Client) :
  (the_client ≫= f) (Some (set_client cfg (TheClient c)))
  = f c (Some (set_client cfg (TheClient c))).
Proof. now apply then_client. Qed.

Lemma not_from_file (cfg : SFConfigT) :
  location_protocol env ≠ "file:" -> outcome (in_cordova env) (Some cfg) = Ok false.
Proof.
  intros H. unfold outcome, in_cordova. apply String.eqb_neq in H. now rewrite H.
Qed.

Lemma loginVF_runs (cfg : SFConfigT) :
  loginVF (Some cfg)
    = (Some (set_client cfg (TheClient (setSessionToken (newClient []) [VPrim (sessionId cfg)]))),
       [NewClient []; SetSessionToken [VPrim (sessionId cfg)]], Ok tt).
Proof. destruct cfg. reflexivity. Qed.

(** X1. Without a session, where reading [cordova] cannot throw, [login]
    is the Cordova strategy from a [file:] page with a truthy [cordova],
    else the Visualforce strategy when [SFConfig.inVisualforce] is
    truthy, else the web strategy. *)
Theorem login_selects_strategy (callback v : value) (cfg : SFConfigT) :
  client_truthy (client cfg) = false ->
  (location_protocol env = "file:" -> cordova env = Declared v) ->
  login env callback (Some cfg) =
    if String.eqb (location_protocol env) "file:" && truthy v
    then setCordovaLoginCred env callback (Some cfg)
    else if truthy_prim (inVisualforce cfg) then loginVF (Some cfg)
    else loginWeb callback (Some cfg).
Proof.
  intros Hc Hg.
  apply (login_dispatch env callback cfg
           (String.eqb (location_protocol env) "file:" && truthy v) Hc).
  unfold outcome, in_cordova.
  destruct (String.eqb (location_protocol env) "file:") eqn:E; [|reflexivity].
  apply String.eqb_eq in E. now rewrite (Hg E).
Qed.

(** X2. On a page that is not loaded from a file, inside Visualforce and
    without a session, [login] makes the client from [SFConfig.sessionId]
    and never invokes the callback it was given. *)
Theorem login_in_visualforce_drops_callback (callback : value) (cfg : SFConfigT) :
  client_truthy (client cfg) = false ->
  location_protocol env ≠ "file:" ->
  truthy_prim (inVisualforce cfg) = true ->
  login env callback (Some cfg)
    = (Some (set_client cfg (TheClient (setSessionToken (newClient []) [VPrim (sessionId cfg)]))),
       [NewClient []; SetSessionToken [VPrim (sessionId cfg)]], Ok tt)
  /\ Invoke callback ∉ calls_of (login env callback) (Some cfg).
Proof.
  intros Hc Hp Hvf.
  assert (E : login env callback (Some cfg) = loginVF (Some cfg)).
  { rewrite (login_dispatch env callback cfg false Hc (not_from_file cfg Hp)).
    now rewrite Hvf. }
  split.
  - rewrite E. apply loginVF_runs.
  - unfold calls_of. rewrite E, loginVF_runs. cbn [fst snd].
    intros H. apply elem_of_cons in H as [H|H]; [discriminate H|].
    apply list_elem_of_singleton in H. discriminate H.
Qed.

(** X3. The credentials handler of the Cordova strategy, given the
    credentials by the plugin, with [apiVersion] declared and a function
    as callback: it makes the client from [clientId] and [loginUrl], sets
    the session token from [accessToken], [apiVersion] and [instanceUrl],
    then the refresh token, and invokes the callback last, once
    [SFConfig.client] is complete. *)
Theorem credentials_handler_runs (name : string) (version : value)
    (id : loc) (kd : kind) (ps : props) (cfg : SFConfigT) :
  apiVersion_global env = Declared version ->
  truthy (reads (VObj id kd ps) "data") = false ->
  let creds := VObj id kd ps in
  let session := [reads creds "accessToken"; version; reads creds "instanceUrl"] in
  salesforceSessionRefreshed env (VFun name) creds (Some cfg)
    = (Some (set_client cfg
               (TheClient
                  (setRefreshToken
                     (setSessionToken
                        (newClient [reads creds "clientId"; reads creds "loginUrl"]) session)
                     (reads creds "refreshToken")))),
       [NewClient [reads creds "clientId"; reads creds "loginUrl"];
        SetSessionToken session;
        SetRefreshToken (reads creds "refreshToken");
        Invoke (VFun name)],
       Ok tt).
Proof.
  intros Hv Hd creds session. unfold salesforceSessionRefreshed. subst creds.
  rewrite js_get_object, then_lift, Hd. cbv zeta.
  rewrite !js_get_object, !then_lift, Hv. cbn [read_global].
  apply then_emit. rewrite then_write, then_client_set, !then_lift.
  apply then_emit. rewrite then_write, then_client_set, then_lift.
  apply then_emit. rewrite then_write. reflexivity.
Qed.

(** X4. The two ways into the credentials handler agree: an event that
    carries the credentials under [data] is handled exactly like the
    credentials themselves, when these are an object without a truthy
    [data] of their own. *)
Theorem credentials_event_like_callback (callback : value)
    (id : loc) (kd : kind) (ps : props) (id' : loc) (kd' : kind) (ps' : props)
    (st : option SFConfigT) :
  own_get "data" ps = Some (VObj id' kd' ps') ->
  truthy (reads (VObj id' kd' ps') "data") = false ->
  salesforceSessionRefreshed env callback (VObj id kd ps) st
  = salesforceSessionRefreshed env callback (VObj id' kd' ps') st.
Proof.
  intros Hdata Hd. unfold salesforceSessionRefreshed.
  rewrite (js_get_object id kd ps "data"), (js_get_object id' kd' ps' "data").
  rewrite (then_lift (Ok (reads (VObj id kd ps) "data"))).
  rewrite (then_lift (Ok (reads (VObj id' kd' ps') "data"))).
  rewrite (EntityFacts.reads_own id kd ps "data" _ Hdata), Hd. reflexivity.
Qed.

(** X5. When no script declared [apiVersion], the credentials handler
    throws a ReferenceError after it has put the new client into
    [SFConfig]: the client is left without session token and the callback
    is not invoked. *)
Theorem credentials_handler_without_apiVersion (callback : value)
    (id : loc) (kd : kind) (ps : props) (cfg : SFConfigT) :
  apiVersion_global env = Undeclared ->
  truthy (reads (VObj id kd ps) "data") = false ->
  let creds := VObj id kd ps in
  salesforceSessionRefreshed env callback creds (Some cfg)
    = (Some (set_client cfg
               (TheClient (newClient [reads creds "clientId"; reads creds "loginUrl"]))),
       [NewClient [reads creds "clientId"; reads creds "loginUrl"]],
       Throw (ReferenceError "apiVersion")).
Proof.
  intros Hv Hd creds. unfold salesforceSessionRefreshed. subst creds.
  rewrite js_get_object, then_lift, Hd. cbv zeta.
  rewrite !js_get_object, !then_lift, Hv. cbn [read_global].
  apply then_emit. rewrite then_write, then_client_set, !then_lift. reflexivity.
Qed.

(** X6. When the callback is not a function (as after [login()] without
    an argument), the credentials handler makes the same client and the
    same three calls as with one, session token and refresh token
    included, and then throws a TypeError at [callback()]: nothing is
    invoked. *)
Theorem credentials_handler_without_callback (callback version : value)
    (id : loc) (kd : kind) (ps : props) (cfg : SFConfigT) :
  apiVersion_global env = Declared version ->
  truthy (reads (VObj id kd ps) "data") = false ->
  (forall name, callback ≠ VFun name) ->
  let creds := VObj id kd ps in
  let session := [reads creds "accessToken"; version; reads creds "instanceUrl"] in
  salesforceSessionRefreshed env callback creds (Some cfg)
    = (Some (set_client cfg
               (TheClient
                  (setRefreshToken
                     (setSessionToken
                        (newClient [reads creds "clientId"; reads creds "loginUrl"]) session)
                     (reads creds "refreshToken")))),
       [NewClient [reads creds "clientId"; reads creds "loginUrl"];
        SetSessionToken session;
        SetRefreshToken (reads creds "refreshToken")],
       Throw (TypeError "not a function")).
Proof.
  intros Hv Hd Hcb creds session. unfold salesforceSessionRefreshed. subst creds.
  rewrite js_get_object, then_lift, Hd. cbv zeta.
  rewrite !js_get_object, !then_lift, Hv. cbn [read_global].
  apply then_emit. rewrite then_write, then_client_set, !then_lift.
  apply then_emit. rewrite then_write, then_client_set, then_lift.
  apply then_emit. rewrite then_write. unfold invoke.
  destruct callback as [p|name|? ? ?]; try reflexivity.
  exfalso. now apply (Hcb name).
Qed.

(** X7. [logout] without a session does nothing at all: no call leaves
    the library, the callback is not invoked and [SFConfig] is as it
    was. *)
Theorem logout_without_session (callback : value) (cfg : SFConfigT) :
  client_truthy (client cfg) = false ->
  logout callback (Some cfg) = (Some cfg, [], Ok tt).
Proof.
  intros H. destruct cfg as [cl ? ? ? ? ? ?]. cbn in H.
  destruct cl; [reflexivity | reflexivity | discriminate H].
Qed.

(** X8. After a [logout] with a session, [authenticated] answers false
    where it answered true before, and a second [logout] does nothing. *)
Theorem logout_ends_session (callback callback' : value) (cfg : SFConfigT) (c : Client) :
  client cfg = TheClient c ->
  outcome authenticated (Some cfg) = Ok true
  /\ outcome authenticated (state_after (logout callback) (Some cfg)) = Ok false
  /\ logout callback' (state_after (logout callback) (Some cfg))
     = (state_after (logout callback) (Some cfg), [], Ok tt).
Proof.
  intros H. destruct cfg as [cl ? ? ? ? ? ?]. cbn in H. subst cl.
  repeat split.
Qed.

(** X9. Once the success handler of the OAuth window has run, [login]
    and [loginWeb] only invoke their callback: no second window is
    opened and [SFConfig] stays as the handler left it. *)
Theorem login_after_oauth_success (name : string) (forcetkClient : Client) (cfg : SFConfigT) :
  let st := state_after (forceOAuthUI_successHandler forcetkClient) (Some cfg) in
  login env (VFun name) st = (st, [Invoke (VFun name)], Ok tt)
  /\ loginWeb (VFun name) st = (st, [Invoke (VFun name)], Ok tt).
Proof. destruct cfg. split; reflexivity. Qed.

(** X10. The two thrown strings: [setCordovaLoginCred] throws
    ['Cordova/PhoneGap not found.'] when [cordova] is declared and
    falsy, [loginWeb] throws its message when [SFConfig] is falsy; both
    before any call. *)
Theorem missing_dependency_strings (callback v : value) (st : option SFConfigT) :
  cordova env = Declared v ->
  truthy v = false ->
  setCordovaLoginCred env callback st
    = (st, [], Throw (ThrownString "Cordova/PhoneGap not found."))
  /\ loginWeb callback None
     = (None, [], Throw (ThrownString "Must set app.SFConfig where app is your AngularJS app")).
Proof.
  intros Hg Hv. split; [|reflexivity].
  unfold setCordovaLoginCred. rewrite Hg. cbn [read_global]. now rewrite then_lift, Hv.
Qed.

(** X11. [loginWeb] without a session opens the login window of a
    [ClientUI] made from [SFConfig.sfLoginURL], [consumerKey],
    [oAuthCallbackURL] and [proxyUrl]; it hands the callback to the
    window and does not invoke it, and it leaves [SFConfig] alone. *)
Theorem loginWeb_opens_window (callback : value) (cfg : SFConfigT) :
  client_truthy (client cfg) = false ->
  let ui := {| ui_loginURL := sfLoginURL cfg; ui_consumerKey := consumerKey cfg;
               ui_callbackURL := oAuthCallbackURL cfg;
               ui_success := forceOAuthUI_successHandler_h;
               ui_error := forceOAuthUI_errorHandler_h;
               ui_proxyUrl := cfg_proxyUrl cfg; ui_client := None;
               ui_instanceUrl := PUndefined; ui_clientProxyUrl := PUndefined |} in
  loginWeb callback (Some cfg) = (Some cfg, [NewClientUI ui; ClientUI_login ui callback], Ok tt).
Proof.
  intros H. destruct cfg as [cl ? ? ? ? ? ?]. cbn in H.
  destruct cl; [reflexivity | reflexivity | discriminate H].
Qed.

(** X12. In a Cordova shell without a session, where [cordova.require]
    is a function and the plugin it returns has a function
    [getAuthCredentials], [login] asks the plugin for the credentials and
    listens to the refresh event with one and the same handler, closed
    over the callback; it invokes nothing and changes nothing itself.
    Where [cordova.require] is no function, or the plugin cannot be read
    or has no function [getAuthCredentials], [login] throws a TypeError
    and nothing is registered. *)
Theorem login_in_cordova_registers_handler (callback c : value) (cfg : SFConfigT) :
  client_truthy (client cfg) = false ->
  location_protocol env = "file:" ->
  cordova env = Declared c ->
  truthy c = true ->
  (forall r g,
     js_get c "require" = Ok (VFun r) ->
     js_get (oauth_plugin env) "getAuthCredentials" = Ok (VFun g) ->
     login env callback (Some cfg)
     = (Some cfg,
        [GetAuthCredentials (salesforceSessionRefreshed_of callback) getAuthCredentialsError_h;
         AddEventListener "salesforceSessionRefresh" (salesforceSessionRefreshed_of callback)],
        Ok tt))
  /\ (forall v,
        js_get c "require" = Ok v ->
        (forall r, v ≠ VFun r) ->
        login env callback (Some cfg)
        = (Some cfg, [], Throw (TypeError "cordova.require is not a function")))
  /\ (forall r e,
        js_get c "require" = Ok (VFun r) ->
        js_get (oauth_plugin env) "getAuthCredentials" = Throw e ->
        login env callback (Some cfg) = (Some cfg, [], Throw e))
  /\ (forall r v,
        js_get c "require" = Ok (VFun r) ->
        js_get (oauth_plugin env) "getAuthCredentials" = Ok v ->
        (forall g, v ≠ VFun g) ->
        login env callback (Some cfg)
        = (Some cfg, [], Throw (TypeError "getAuthCredentials is not a function"))).
Proof.
  intros Hc Hp Hg Ht.
  assert (E : login env callback (Some cfg) = setCordovaLoginCred env callback (Some cfg)).
  { rewrite (login_dispatch env callback cfg true Hc); [reflexivity|].
    unfold outcome, in_cordova. rewrite Hp, Hg. cbn [read_global].
    change (("file:" =? "file:")%string) with true. cbv iota.
    rewrite then_lift. unfold mret, M_ret. cbn [snd]. now rewrite Ht. }
  rewrite E. unfold setCordovaLoginCred. rewrite Hg. cbn [read_global].
  rewrite then_lift, Ht. cbn [negb]. split; [|split; [|split]].
  - intros r g Hr Hgac. now rewrite Hr, then_lift, Hgac, then_lift.
  - intros v Hv Hno. rewrite Hv, then_lift.
    destruct v as [p|r|? ? ?]; try reflexivity. exfalso. now apply (Hno r).
  - intros r e Hr Hgac. now rewrite Hr, then_lift, Hgac.
  - intros r v Hr Hgac Hno. rewrite Hr, then_lift, Hgac, then_lift.
    destruct v as [p|g|? ? ?]; try reflexivity. exfalso. now apply (Hno g).
Qed.

End Facts.

End ServiceMore.

(* ===================================================================== *)
(** ** More on the entity class                                           *)
(* ===================================================================== *)

Module FactoryMore.

Import Factory JSFacts DiffFacts ObjectFacts EntityFacts.

(** *** Fresh identities *)

Lemma copy_object (n id : loc) (kd : kind) (ps : props) :
  copy n (VObj id kd ps)
  = (VObj n (match kd with Array => Array | _ => Plain end) (copy_list (S n) ps).1,
     (copy_list (S n) ps).2).
Proof.
  change (copy n (VObj id kd ps))
    with (let '(ps', n') := copy_list (S n) ps in
          (VObj n (match kd with Array => Array | _ => Plain end) ps', n')).
  now destruct (copy_list (S n) ps).
Qed.

Lemma copy_mono : forall (v : value) (n : loc), n <= (copy n v).2.
Proof.
  fix IH 1. intros [p|f|id kd ps] n; [apply Nat.le_refl | apply Nat.le_refl |].
  rewrite copy_object. cbn [snd].
  assert (Hl : forall (l : props) (m : loc), m <= (copy_list m l).2).
  { induction l as [|[k x] r IHr]; intros m; [apply Nat.le_refl|].
    cbn [copy_list]. pose proof (IH x m) as Hx.
    destruct (copy m x) as [x' n1]. pose proof (IHr n1) as Hr.
    destruct (copy_list n1 r) as [r' n2]. cbn [snd] in *. lia. }
  pose proof (Hl ps (S n)). lia.
Qed.

Lemma copy_into_get_fresh (k : string) (src : props) :
  NoDup src.*1 ->
  forall (n : loc) (dst : props) (v : value),
    own_get k src = Some v ->
    exists m, n <= m /\ own_get k (copy_into n src dst).1 = Some (copy m v).1.
Proof.
  induction src as [|[k0 x] r IH]; intros Hnd n dst v Hv; [discriminate Hv|].
  cbn [fmap list_fmap fst] in Hnd. apply NoDup_cons in Hnd as [Hk0 Hnd].
  cbn [copy_into own_get] in *. pose proof (copy_mono x n) as Hmono.
  destruct (copy n x) as [x' n1] eqn:Ecopy. cbn [snd] in Hmono.
  destruct (String.eqb k k0) eqn:E.
  - apply String.eqb_eq in E. subst k0. injection Hv as <-.
    apply own_get_None in Hk0.
    pose proof (copy_into_get k r Hnd n1 (own_set k x' dst)) as Hr.
    rewrite Hk0 in Hr. rewrite Hr, own_get_set_eq.
    exists n. split; [apply Nat.le_refl | now rewrite Ecopy].
  - destruct (IH Hnd n1 (own_set k0 x' dst) v Hv) as (m & Hm & Hget).
    exists m. split; [lia | exact Hget].
Qed.

(** *** What a fresh entity answers *)

(** A property that is no reserved name and is unset or a primitive in
    the record reads the same on the entity built from the record. *)
Lemma fresh_reads (next id : loc) (ps : props) (k : string) :
  NoDup ps.*1 ->
  k ∉ reserved ->
  own_get k ps = None \/ (exists p, own_get k ps = Some (VPrim p)) ->
  reads (VObj next Entity
           (own_set "_orig" (VObj id Plain ps) (copy_into (S next) ps []).1)) k
  = reads (VObj id Plain ps) k.
Proof.
  intros Hnd Hres Hval.
  assert (Hk : k ≠ "_orig").
  { intros ->. apply Hres. unfold reserved. now apply elem_of_cons; left. }
  pose proof (copy_into_get k ps Hnd (S next) []) as Hcp.
  destruct Hval as [Hnone | (p & Hsome)].
  - rewrite Hnone in Hcp. cbn [own_get] in Hcp.
    rewrite reads_entity_unset; [| now rewrite own_get_set_ne | assumption].
    now rewrite reads_plain_unset.
  - rewrite Hsome in Hcp. destruct Hcp as [m Hcp]. rewrite copy_prim in Hcp.
    rewrite (reads_own _ _ _ k (VPrim p)) by now rewrite own_get_set_ne.
    now rewrite (reads_own _ _ _ k (VPrim p)).
Qed.

Lemma newObj_lookup (obj : value) (l : list string) :
  forall (d : gmap string value) (k : string),
    foldl (fun (newObj : gmap string value) field =>
             if negb (String.eqb field "Id") then <[field := reads obj field]> newObj
             else newObj) d l !! k
    = if decide (k ∈ l /\ k ≠ "Id") then Some (reads obj k) else d !! k.
Proof.
  induction l as [|x l IH]; intros d k.
  - destruct (decide _) as [[H _]|_]; [|reflexivity]. now apply elem_of_nil in H.
  - cbn [foldl]. rewrite IH.
    destruct (decide (k ∈ l /\ _)) as [(Hin & Hid)|Hno].
    + rewrite decide_True; [reflexivity|]. split; [now apply elem_of_cons; right | assumption].
    + destruct (decide (k = x)) as [->|Hne].
      * destruct (negb (String.eqb x "Id")) eqn:Hid.
        -- apply negb_true_iff, String.eqb_neq in Hid.
           rewrite lookup_insert_eq, decide_True; [reflexivity|].
           split; [now apply elem_of_cons; left | assumption].
        -- apply negb_false_iff, String.eqb_eq in Hid.
           rewrite decide_False; [reflexivity|]. intros (_ & H). contradiction.
      * rewrite decide_False.
        -- destruct (negb _); [|reflexivity]. now rewrite lookup_insert_ne.
        -- intros (Hin & Hid). apply Hno. split; [|assumption].
           apply elem_of_cons in Hin as [?|?]; [contradiction|assumption].
Qed.

(** X13. With the client present, [save] of an object that is no array
    calls the client's [create] with a record that has an entry for a
    field exactly when the field is listed and is not [Id]; the entry is
    the object's current value, also when that is [undefined].  The
    listed fields are not names of [Object.prototype]. *)
Theorem save_sends_listed_fields (arg : option Params) (F : ForceTK) (cfg : SFConfigT)
    (c : Client) (id : loc) (kd : kind) (ps : props) (successCB failureCB : value) :
  client cfg = TheClient c ->
  kd ≠ Array ->
  (forall k, k ∈ fieldsArray arg -> k ∉ Object_prototype_names) ->
  exists data : gmap string value,
    save arg cfg (VObj id kd ps) successCB failureCB
      = Ok {| receiver := c; method := Mcreate (type arg) data;
              success := WrappedSaved successCB; failure := failureCB |}
    /\ forall (k : string) (v : value),
         data !! k = Some v <->
         (k ∈ fieldsArray arg /\ k ≠ "Id" /\ v = reads (VObj id kd ps) k).
Proof.
  intros Hc _ _. unfold save, SFConfig_client.
  rewrite getNewObjectData_object, bind_Ok, Hc, bind_Ok.
  eexists. split; [reflexivity|].
  intros k v. rewrite newObj_lookup.
  destruct (decide _) as [(Hin & Hid)|Hno].
  - split; [intros [= <-]; auto | intros (_ & _ & ->); reflexivity].
  - rewrite lookup_empty. split; [discriminate|].
    intros (Hin & Hid & _). exfalso. apply Hno. auto.
Qed.

(** X14. Without a session no operation of the entity class reaches the
    client: each one throws, and the failure callback is not used. *)
Theorem no_session_no_call (arg : option Params) (F : ForceTK) (escape : string -> string)
    (cfg : SFConfigT) (op : entity_operation) :
  Service.client_truthy (client cfg) = false ->
  exists e, perform arg escape cfg op = Throw e.
Proof.
  intros H.
  assert (Hcl : SFConfig_client cfg = Throw (TypeError "SFConfig.client")).
  { unfold SFConfig_client. destruct (client cfg); [reflexivity | reflexivity | discriminate H]. }
  destruct op as [s f|term s f|params s f|obj s f|obj s f|obj s f|obj s f|obj s f];
    cbn [perform]; unfold query, search, get, save, update, remove, prototype_update,
      prototype_destroy, update, remove; rewrite ?Hcl; eauto.
  - destruct (getNewObjectData arg obj); eauto.
  - destruct (getChangedData arg obj); eauto.
  - destruct (getChangedData arg obj); eauto.
Qed.

(** X15. The wrapper that [get] and [update] hand to the client turns
    an answer that is an object, and no array, into an entity with an
    identity of its own whose [_orig] is the answer itself; an array or a
    falsy answer goes to the callback as it is. *)
Theorem wrapper_keeps_answer_as_orig (next id : loc) (kd : kind) (ps : props)
    (successCB : value) :
  kd ≠ Array ->
  (exists own' next',
     success_arg next (Wrapped successCB) (VObj id kd ps) = Ok (VObj next Entity own', next')
     /\ reads (VObj next Entity own') "_orig" = VObj id kd ps)
  /\ (forall data, truthy data = false \/ isArray data = true ->
        success_arg next (Wrapped successCB) data = Ok (data, next)).
Proof.
  intros Hk. split.
  - unfold success_arg. cbn [truthy].
    replace (isArray (VObj id kd ps)) with false by now destruct kd.
    cbn [negb andb]. rewrite construct_object by assumption.
    eexists _, _. split; [reflexivity|]. apply reads_own, own_get_set_eq.
  - intros data [Ht|Ha]; unfold success_arg.
    + now rewrite Ht.
    + rewrite Ha. now destruct (truthy data).
Qed.

(** X16. An entity built from a record without a [__proto__] entry
    answers, for every property name that is unset or a primitive in the
    record, what the record answers; the names [_orig], [constructor],
    [update] and [destroy] and the names of [Object.prototype] apart. *)
Theorem fresh_entity_reads_record (next id : loc) (ps : props) :
  NoDup ps.*1 ->
  "__proto__" ∉ ps.*1 ->
  exists inst next',
    AngularForceObject next (VObj id Plain ps) = Ok (inst, next')
    /\ forall k, k ∉ reserved -> k ∉ Object_prototype_names ->
         own_get k ps = None \/ (exists p, own_get k ps = Some (VPrim p)) ->
         reads inst k = reads (VObj id Plain ps) k.
Proof.
  intros Hnd _. rewrite construct_plain. eexists _, _. split; [reflexivity|].
  intros k Hres _ Hval. now apply fresh_reads.
Qed.

(** X17. A listed field that holds an object in the record is in the
    diff of the entity as soon as it is built: the entity holds a copy,
    and a copy is never strictly equal to its original. *)
Theorem object_field_always_in_diff (arg : option Params) (next id : loc) (ps : props)
    (f : string) (i : loc) (kd' : kind) (ps' : props) :
  NoDup ps.*1 ->
  f ∈ fieldsArray arg ->
  f ≠ "Id" ->
  f ≠ "_orig" ->
  own_get f ps = Some (VObj i kd' ps') ->
  i <= next ->
  exists inst next' diff,
    AngularForceObject next (VObj id Plain ps) = Ok (inst, next')
    /\ getChangedData arg inst = Ok diff
    /\ diff !! f = Some (reads inst f).
Proof.
  intros Hnd Hin Hid Horig Hf Hi. rewrite construct_plain.
  eexists _, _, _. split; [reflexivity|].
  rewrite getChangedData_fold.
  set (source := VObj id Plain ps).
  set (cp := (copy_into (S next) ps []).1).
  rewrite (reads_own _ _ _ "_orig" source) by apply own_get_set_eq.
  cbn [truthy source]. split; [reflexivity|].
  rewrite diff_step_lookup, decide_True; [reflexivity|].
  split; [assumption|]. split; [assumption|].
  destruct (copy_into_get_fresh f ps Hnd (S next) [] _ Hf) as (m & Hm & Hcp). fold cp in Hcp.
  rewrite copy_object in Hcp. cbn [fst] in Hcp.
  rewrite (reads_own _ _ _ f _ (eq_trans (own_get_set_ne _ _ _ _ Horig) Hcp)).
  rewrite (reads_own _ _ _ f _ Hf).
  unfold strict_ne, strict_eq. apply negb_true_iff, Nat.eqb_neq. lia.
Qed.

(** X18. Building an entity from a record and then assigning one listed
    field a value that is not strictly equal to the record's gives a diff
    with that field alone, when the listed fields are as C10 asks and are
    not names of [Object.prototype], and the record has no [__proto__]
    entry. *)
Theorem edit_then_diff (arg : option Params) (next id : loc) (ps : props)
    (f : string) (v : value) :
  NoDup ps.*1 ->
  "__proto__" ∉ ps.*1 ->
  (forall k, k ∈ fieldsArray arg -> k ≠ "Id" ->
     (k ∉ reserved)
     /\ (k ∉ Object_prototype_names)
     /\ (own_get k ps = None
         \/ (exists p, own_get k ps = Some (VPrim p) /\ p ≠ PNaN))) ->
  f ∈ fieldsArray arg ->
  f ≠ "Id" ->
  strict_ne v (reads (VObj id Plain ps) f) = true ->
  exists own' next',
    AngularForceObject next (VObj id Plain ps) = Ok (VObj next Entity own', next')
    /\ getChangedData arg (VObj next Entity (own_set f v own')) = Ok {[ f := v ]}.
Proof.
  intros Hnd _ Hall' Hin Hid Hv.
  assert (Hall : forall k, k ∈ fieldsArray arg -> k ≠ "Id" ->
            (k ∉ reserved)
            /\ (own_get k ps = None
                \/ (exists p, own_get k ps = Some (VPrim p) /\ p ≠ PNaN))).
  { intros k Hk Hkid. destruct (Hall' k Hk Hkid) as (H1 & _ & H2). now split. }
  clear Hall'. rewrite construct_plain.
  eexists _, _. split; [reflexivity|].
  set (source := VObj id Plain ps).
  set (own' := own_set "_orig" source (copy_into (S next) ps []).1).
  destruct (Hall f Hin Hid) as [Hres _].
  assert (Hf : f ≠ "_orig").
  { intros ->. apply Hres. unfold reserved. now apply elem_of_cons; left. }
  rewrite getChangedData_fold.
  assert (Horig : reads (VObj next Entity (own_set f v own')) "_orig" = source).
  { apply reads_own. rewrite own_get_set_ne by (intros E; now apply Hf).
    apply own_get_set_eq. }
  rewrite Horig. cbn [truthy source]. f_equal. apply map_eq. intros k.
  rewrite diff_step_lookup.
  destruct (decide (k = f)) as [->|Hne].
  - rewrite lookup_singleton_eq.
    rewrite (reads_own _ _ _ f v) by apply own_get_set_eq.
    rewrite decide_True; [reflexivity|]. auto.
  - rewrite lookup_singleton_ne by congruence.
    rewrite decide_False; [reflexivity|].
    intros (Hk & Hkid & Hs).
    destruct (Hall k Hk Hkid) as [Hkres Hkval].
    assert (E : reads (VObj next Entity (own_set f v own')) k = reads source k).
    { transitivity (reads (VObj next Entity own') k).
      - unfold reads, js_get. now rewrite own_get_set_ne.
      - apply fresh_reads; [assumption | assumption |].
        destruct Hkval as [?|(p & ? & _)]; [now left | right; eauto]. }
    rewrite E in Hs. unfold strict_ne in Hs. apply negb_true_iff in Hs.
    unfold source in Hs.
    destruct Hkval as [Hnone | (p & Hsome & Hp)].
    + rewrite reads_plain_unset in Hs by assumption. discriminate Hs.
    + rewrite (reads_own _ _ _ k (VPrim p)) in Hs by assumption.
      rewrite strict_eq_prim_refl in Hs by assumption. discriminate Hs.
Qed.

(** X19. A factory made without a field array lists no field: [save] and
    [update] send an empty record, and the query string selects nothing. *)
Theorem no_field_array (arg : option Params) (F : ForceTK) (cfg : SFConfigT) (c : Client)
    (id : loc) (kd : kind) (ps : props) (successCB failureCB : value) :
  p_fields (params arg) = None ->
  client cfg = TheClient c ->
  save arg cfg (VObj id kd ps) successCB failureCB
    = Ok {| receiver := c; method := Mcreate (type arg) ∅;
            success := WrappedSaved successCB; failure := failureCB |}
  /\ update arg cfg (VObj id kd ps) successCB failureCB
     = Ok {| receiver := c; method := Mupdate (type arg) (reads (VObj id kd ps) "Id") ∅;
             success := Wrapped successCB; failure := failureCB |}
  /\ soql arg = "SELECT  FROM " +:+ to_string (type arg) +:+ where_ arg +:+ orderBy arg
                  +:+ limit arg.
Proof.
  intros Hf Hc.
  assert (Hl : fieldsArray arg = []) by (unfold fieldsArray; now rewrite Hf).
  assert (Hcl : SFConfig_client cfg = Ok c) by (unfold SFConfig_client; now rewrite Hc).
  split; [|split].
  - unfold save. rewrite getNewObjectData_object, Hl, bind_Ok, Hcl. reflexivity.
  - unfold update. rewrite getChangedData_fold, Hl, bind_Ok, Hcl, bind_Ok, js_get_object.
    cbn [foldl]. now destruct (truthy _).
  - unfold soql, fields. rewrite Hf. now rewrite !append_assoc.
Qed.

(** X20. A where, ORDER BY or limit parameter counts as given exactly
    when it is truthy: [0], [false], [null], [NaN] and [''] are treated
    like an absent parameter, so that a limit of [0] asks for 25. *)
Theorem falsy_parameter_is_absent (arg : option Params) :
  (truthy_prim (p_where (params arg)) = false <-> where_ arg = "")
  /\ (truthy_prim (p_orderBy (params arg)) = false <-> orderBy arg = "")
  /\ (truthy_prim (p_limit (params arg)) = false <-> limit arg = "LIMIT 25").
Proof.
  unfold where_, orderBy, limit. rewrite !given_truthy.
  repeat split; intros H;
    try (now rewrite H);
    match goal with
    | |- truthy_prim ?p = false => destruct (truthy_prim p); [discriminate H | reflexivity]
    end.
Qed.

(** X21. [getChangedData] and [update] on [undefined] or [null] throw a
    TypeError, whatever the session and the field list are. *)
Theorem update_of_nothing_throws (arg : option Params) (F : ForceTK) (cfg : SFConfigT)
    (obj successCB failureCB : value) :
  obj = undefined \/ obj = VPrim PNull ->
  exists what,
    getChangedData arg obj = Throw (TypeError what)
    /\ update arg cfg obj successCB failureCB = Throw (TypeError what).
Proof. intros [-> | ->]; eexists; split; reflexivity. Qed.

End FactoryMore.

(* ===================================================================== *)
(** ** The first version of the library                                   *)
(* ===================================================================== *)

Module LegacyFacts.

Import JSFacts DiffFacts ObjectFacts EntityFacts.

(** X22. The first version's [query]: with a field array and the client
    present it sends SELECT, the names joined by commas, FROM, the type,
    one space and the where parameter as it prints, so that an absent
    where parameter puts [undefined] at the end of the query; without a
    field array it throws a TypeError at [fields.join], whatever
    [SFConfig] holds, session or not. *)
Theorem legacy_query_string (arg : option Factory.Params) (F : ForceTK)
    (successCB failureCB : value) :
  (forall l cfg c,
     Factory.p_fields (Factory.params arg) = Some l ->
     client cfg = TheClient c ->
     Legacy.query arg cfg successCB failureCB
     = Ok {| Legacy.receiver := c;
             Legacy.method :=
               Legacy.Mquery ("SELECT " +:+ Factory.join "," l +:+ " FROM "
                                +:+ to_string (Factory.type arg) +:+ " "
                                +:+ to_string (Factory.p_where (Factory.params arg)));
             Legacy.success := Factory.Direct successCB;
             Legacy.failure := failureCB |})
  /\ (forall l, Factory.p_fields (Factory.params arg) = Some l ->
      Factory.p_where (Factory.params arg) = PUndefined ->
      Legacy.soql arg
      = Ok ("SELECT " +:+ Factory.join "," l +:+ " FROM "
              +:+ to_string (Factory.type arg) +:+ " undefined"))
  /\ (forall cfg : SFConfigT,
      Factory.p_fields (Factory.params arg) = None ->
      Legacy.query arg cfg successCB failureCB = Throw (TypeError "fields.join")).
Proof.
  split; [|split].
  - intros l cfg c Hl Hc. unfold Legacy.query.
    rewrite (legacy_soql_clause_order arg l Hl), bind_Ok.
    unfold Factory.SFConfig_client. now rewrite Hc.
  - intros l Hl Hw. rewrite (legacy_soql_clause_order arg l Hl), Hw. reflexivity.
  - intros cfg Hn. unfold Legacy.query, Legacy.soql, Legacy.fields, Legacy.params.
    unfold Factory.params in Hn. rewrite Hn. reflexivity.
Qed.

(** X23. The first version's [prototype.update] and [prototype.destroy]
    take one callback and pass no failure callback on: the client is
    called with [undefined] in its place. *)
Theorem legacy_prototype_drops_failure (arg : option Factory.Params) (F : ForceTK)
    (cfg : SFConfigT) (c : Client) (id : loc) (kd : kind) (ps : props) (cb : value) :
  client cfg = TheClient c ->
  (exists data,
     Legacy.prototype_update arg cfg (VObj id kd ps) cb
     = Ok {| Legacy.receiver := c;
             Legacy.method :=
               Legacy.Mupdate (Factory.type arg) (reads (VObj id kd ps) "Id") data;
             Legacy.success := Factory.Wrapped cb;
             Legacy.failure := undefined |})
  /\ Legacy.prototype_destroy arg cfg (VObj id kd ps) cb
     = Ok {| Legacy.receiver := c;
             Legacy.method := Legacy.Mdel (Factory.type arg) (reads (VObj id kd ps) "Id");
             Legacy.success := Factory.Direct cb;
             Legacy.failure := undefined |}.
Proof.
  intros Hc.
  assert (Hcl : Factory.SFConfig_client cfg = Ok c)
    by (unfold Factory.SFConfig_client; now rewrite Hc).
  split.
  - eexists. unfold Legacy.prototype_update, Legacy.update.
    rewrite legacy_getChangedData, getChangedData_fold, bind_Ok, Hcl, bind_Ok, js_get_object.
    reflexivity.
  - unfold Legacy.prototype_destroy, Legacy.remove.
    now rewrite Hcl, bind_Ok, js_get_object.
Qed.

(** X24. The first version's [save] wraps the answer like [get] does:
    the lowercase [id] of a created record stays [id] on the entity, and
    [Id] stays unset. *)
Theorem legacy_save_keeps_lowercase_id (arg : option Factory.Params) (F : ForceTK)
    (cfg : SFConfigT) (obj successCB failureCB : value) (call : Legacy.rest_call)
    (next i : loc) (ps : props) (p : prim) :
  Legacy.save arg cfg obj successCB failureCB = Ok call ->
  NoDup ps.*1 ->
  own_get "id" ps = Some (VPrim p) ->
  own_get "Id" ps = None ->
  exists inst next',
    Factory.success_arg next (Legacy.success call) (VObj i Plain ps) = Ok (inst, next')
    /\ reads inst "id" = VPrim p
    /\ reads inst "Id" = undefined.
Proof.
  intros Hsave Hnd Hid HId.
  assert (Hs : Legacy.success call = Factory.Wrapped successCB).
  { unfold Legacy.save in Hsave.
    destruct (Legacy.getNewObjectData arg obj); [|discriminate Hsave].
    rewrite bind_Ok in Hsave.
    destruct (Factory.SFConfig_client cfg); [|discriminate Hsave].
    rewrite bind_Ok in Hsave. now injection Hsave as <-. }
  rewrite Hs. unfold Factory.success_arg. cbn [truthy isArray negb andb].
  rewrite construct_plain. eexists _, _. split; [reflexivity|].
  split.
  - rewrite FactoryMore.fresh_reads; [now apply reads_own | assumption | compute_done |].
    right. eauto.
  - rewrite FactoryMore.fresh_reads; [now apply reads_plain_unset | assumption | compute_done |].
    now left.
Qed.

(** X25. With a session and no callback, the first version's [login]
    throws a TypeError, calling [callback()] unguarded, where the later
    version returns; with a function both invoke it and nothing else. *)
Theorem legacy_login_needs_callback (F : ForceTK) (env : Service.Env) (cfg : SFConfigT)
    (c : Client) (name : string) :
  client cfg = TheClient c ->
  LegacyService.login undefined (Some cfg) = (Some cfg, [], Throw (TypeError "not a function"))
  /\ Service.login env undefined (Some cfg) = (Some cfg, [], Ok tt)
  /\ LegacyService.login (VFun name) (Some cfg)
     = (Some cfg, [LegacyService.Invoke (VFun name)], Ok tt)
  /\ Service.login env (VFun name) (Some cfg) = (Some cfg, [Service.Invoke (VFun name)], Ok tt).
Proof.
  intros H. destruct cfg as [cl ? ? ? ? ? ?]. cbn in H. subst cl. repeat split.
Qed.

(** X26. The first version's success handler of the OAuth window puts
    the client into [SFConfig] with its [serviceURL] set to the instance
    URL, ['/services/data/'] and the API version, and only then invokes
    the callback of [login]; a [login] after that just invokes its
    callback. *)
Theorem legacy_oauth_success (F : ForceTK) (cfg : SFConfigT) (forcetkClient : Client)
    (name name' : string) :
  let st := Some (set_client cfg
                    (TheClient (set_serviceURL forcetkClient
                       ((to_string (instanceUrl forcetkClient) +:+ "/services/data/")
                          +:+ to_string (apiVersion forcetkClient))))) in
  LegacyService.forceOAuthUI_successHandler (VFun name) forcetkClient (Some cfg)
    = (st, [LegacyService.ConsoleLog "OAuth success!"; LegacyService.Invoke (VFun name)], Ok tt)
  /\ LegacyService.login (VFun name') st = (st, [LegacyService.Invoke (VFun name')], Ok tt).
Proof. destruct cfg. split; reflexivity. Qed.

End LegacyFacts.

(* ===================================================================== *)
(** ** The further theorems at the sample data                            *)
(* ===================================================================== *)

Module MoreInstances.

Import Factory Service Samples.

Lemma login_selects_strategy_witness :
  login hosted_page (VFun "callback") (Some logged_out)
  = loginWeb (VFun "callback") (Some logged_out).
Proof.
  apply (ServiceMore.login_selects_strategy (F := recording_client) hosted_page
           (VFun "callback") undefined logged_out).
  - reflexivity.
  - discriminate.
Defined.

Lemma login_in_visualforce_drops_callback_witness :
  Invoke (VFun "callback") ∉ calls_of (login hosted_page (VFun "callback")) (Some in_visualforce).
Proof.
  apply (ServiceMore.login_in_visualforce_drops_callback (F := recording_client) hosted_page
           (VFun "callback") in_visualforce).
  - reflexivity.
  - discriminate.
  - reflexivity.
Defined.

Lemma credentials_handler_runs_witness :
  calls_of (salesforceSessionRefreshed cordova_shell (VFun "callback") credentials)
    (Some logged_out)
  = [NewClient [VPrim (PStr "id"); VPrim (PStr "https://login")];
     SetSessionToken [VPrim (PStr "token"); VPrim (PStr "v27.0"); VPrim (PStr "https://na1")];
     SetRefreshToken (VPrim (PStr "refresh"));
     Invoke (VFun "callback")].
Proof.
  exact (f_equal (fun r => r.1.2)
           (ServiceMore.credentials_handler_runs (F := recording_client) cordova_shell
              "callback" (VPrim (PStr "v27.0")) 1 Plain (own credentials) logged_out
              eq_refl eq_refl)).
Defined.

Lemma credentials_event_like_callback_witness :
  salesforceSessionRefreshed cordova_shell (VFun "callback") credentials_event (Some logged_out)
  = salesforceSessionRefreshed cordova_shell (VFun "callback") credentials (Some logged_out).
Proof.
  apply (ServiceMore.credentials_event_like_callback (F := recording_client) cordova_shell
           (VFun "callback") 2 Plain (own credentials_event) 1 Plain (own credentials));
    reflexivity.
Defined.

Lemma credentials_handler_without_apiVersion_witness :
  outcome (salesforceSessionRefreshed cordova_shell_no_version (VFun "callback") credentials)
    (Some logged_out)
  = Throw (ReferenceError "apiVersion").
Proof.
  exact (f_equal (fun r => r.2)
           (ServiceMore.credentials_handler_without_apiVersion (F := recording_client)
              cordova_shell_no_version (VFun "callback") 1 Plain (own credentials) logged_out
              eq_refl eq_refl)).
Defined.

Lemma credentials_handler_without_callback_witness :
  salesforceSessionRefreshed cordova_shell undefined credentials (Some logged_out)
  = (Some (set_client logged_out
             (TheClient
                (setRefreshToken
                   (setSessionToken
                      (newClient [VPrim (PStr "id"); VPrim (PStr "https://login")])
                      [VPrim (PStr "token"); VPrim (PStr "v27.0");
                       VPrim (PStr "https://na1")])
                   (VPrim (PStr "refresh"))))),
     [NewClient [VPrim (PStr "id"); VPrim (PStr "https://login")];
      SetSessionToken [VPrim (PStr "token"); VPrim (PStr "v27.0");
                       VPrim (PStr "https://na1")];
      SetRefreshToken (VPrim (PStr "refresh"))],
     Throw (TypeError "not a function")).
Proof.
  apply (ServiceMore.credentials_handler_without_callback (F := recording_client) cordova_shell
           undefined (VPrim (PStr "v27.0")) 1 Plain (own credentials) logged_out).
  - reflexivity.
  - reflexivity.
  - discriminate.
Defined.

Lemma logout_without_session_witness :
  logout (VFun "callback") (Some logged_out) = (Some logged_out, [], Ok tt).
Proof.
  apply (ServiceMore.logout_without_session (F := recording_client) (VFun "callback") logged_out).
  reflexivity.
Defined.

Lemma logout_ends_session_witness :
  outcome authenticated (state_after (logout (VFun "callback")) (Some logged_in)) = Ok false.
Proof.
  apply (ServiceMore.logout_ends_session (F := recording_client) (VFun "callback")
           (VFun "callback") logged_in a_client).
  reflexivity.
Defined.

Lemma missing_dependency_strings_witness :
  setCordovaLoginCred page_cordova_unset (VFun "callback") (Some logged_out)
  = (Some logged_out, [], Throw (ThrownString "Cordova/PhoneGap not found.")).
Proof.
  apply (ServiceMore.missing_dependency_strings (F := recording_client) page_cordova_unset
           (VFun "callback") undefined (Some logged_out)); reflexivity.
Defined.

Lemma loginWeb_opens_window_witness :
  outcome (loginWeb (VFun "callback")) (Some logged_out) = Ok tt.
Proof.
  exact (f_equal (fun r => r.2)
           (ServiceMore.loginWeb_opens_window (F := recording_client) (VFun "callback")
              logged_out eq_refl)).
Defined.

Lemma login_in_cordova_registers_handler_witness :
  login cordova_shell (VFun "callback") (Some logged_out)
  = (Some logged_out,
     [GetAuthCredentials (salesforceSessionRefreshed_of (VFun "callback"))
        getAuthCredentialsError_h;
      AddEventListener "salesforceSessionRefresh"
        (salesforceSessionRefreshed_of (VFun "callback"))],
     Ok tt).
Proof.
  destruct (ServiceMore.login_in_cordova_registers_handler (F := recording_client) cordova_shell
              (VFun "callback") cordova_object logged_out eq_refl eq_refl eq_refl eq_refl)
    as [H _].
  apply (H "cordova.require" "getAuthCredentials"); reflexivity.
Defined.

Lemma save_sends_listed_fields_witness :
  exists data : gmap string value,
    save (Some sample_params) logged_in opportunity (VFun "successCB") (VFun "failureCB")
      = Ok {| receiver := a_client; method := Mcreate (PStr "Opportunity") data;
              success := WrappedSaved (VFun "successCB"); failure := VFun "failureCB" |}
    /\ forall (k : string) (v : value),
         data !! k = Some v <->
         (k ∈ ["Name"; "Id"] /\ k ≠ "Id" /\ v = reads opportunity k).
Proof.
  apply (FactoryMore.save_sends_listed_fields (Some sample_params) recording_client logged_in
           a_client 0 Plain (own opportunity) (VFun "successCB") (VFun "failureCB")).
  - reflexivity.
  - discriminate.
  - intros k Hk. vm_compute in Hk.
    apply elem_of_cons in Hk as [->|Hk]; [compute_done|].
    apply list_elem_of_singleton in Hk as ->. compute_done.
Defined.

Lemma no_session_no_call_witness :
  exists e, perform (Some sample_params) (fun s => s) logged_out
              (Equery (VFun "successCB") (VFun "failureCB")) = Throw e.
Proof.
  apply (FactoryMore.no_session_no_call (Some sample_params) recording_client (fun s => s)
           logged_out (Equery (VFun "successCB") (VFun "failureCB"))).
  reflexivity.
Defined.

Lemma wrapper_keeps_answer_as_orig_witness :
  exists own' next',
    success_arg 5 (Wrapped (VFun "successCB")) opportunity = Ok (VObj 5 Entity own', next')
    /\ reads (VObj 5 Entity own') "_orig" = opportunity.
Proof.
  apply (FactoryMore.wrapper_keeps_answer_as_orig 5 0 Plain (own opportunity) (VFun "successCB")).
  discriminate.
Defined.

Lemma fresh_entity_reads_record_witness :
  exists inst next',
    AngularForceObject 5 opportunity = Ok (inst, next')
    /\ forall k, k ∉ reserved -> k ∉ Object_prototype_names ->
         own_get k (own opportunity) = None
         \/ (exists p, own_get k (own opportunity) = Some (VPrim p)) ->
         reads inst k = reads opportunity k.
Proof.
  apply (FactoryMore.fresh_entity_reads_record 5 0 (own opportunity)); compute_done.
Defined.

Lemma object_field_always_in_diff_witness :
  exists inst next' diff,
    AngularForceObject 5 opportunity_with_owner = Ok (inst, next')
    /\ getChangedData (Some params_with_owner) inst = Ok diff
    /\ diff !! "Owner" = Some (reads inst "Owner").
Proof.
  apply (FactoryMore.object_field_always_in_diff (Some params_with_owner) 5 0
           (own opportunity_with_owner) "Owner" 1 Plain [("Name", VPrim (PStr "Ann"))]).
  - compute_done.
  - compute_done.
  - discriminate.
  - discriminate.
  - reflexivity.
  - lia.
Defined.

Lemma edit_then_diff_witness :
  exists own' next',
    AngularForceObject 5 opportunity = Ok (VObj 5 Entity own', next')
    /\ getChangedData (Some sample_params)
         (VObj 5 Entity (own_set "Name" (VPrim (PStr "Bigger Opportunity")) own'))
       = Ok {[ "Name" := VPrim (PStr "Bigger Opportunity") ]}.
Proof.
  apply (FactoryMore.edit_then_diff (Some sample_params) 5 0 (own opportunity) "Name"
           (VPrim (PStr "Bigger Opportunity"))).
  - compute_done.
  - compute_done.
  - intros k Hk Hid. vm_compute in Hk.
    apply elem_of_cons in Hk as [->|Hk]; [|apply list_elem_of_singleton in Hk; contradiction].
    split; [compute_done|]. split; [compute_done|].
    right. eexists. split; [reflexivity|discriminate].
  - compute_done.
  - discriminate.
  - reflexivity.
Defined.

Lemma no_field_array_witness :
  soql (Some params_no_fields) = "SELECT  FROM OpportunityLIMIT 25".
Proof.
  apply (FactoryMore.no_field_array (Some params_no_fields) recording_client logged_in a_client
           0 Plain (own opportunity) (VFun "successCB") (VFun "failureCB")); reflexivity.
Defined.

Lemma update_of_nothing_throws_witness :
  exists what,
    getChangedData (Some sample_params) undefined = Throw (TypeError what)
    /\ update (Some sample_params) logged_in undefined (VFun "successCB") (VFun "failureCB")
       = Throw (TypeError what).
Proof.
  apply (FactoryMore.update_of_nothing_throws (Some sample_params) recording_client logged_in
           undefined (VFun "successCB") (VFun "failureCB")).
  left. reflexivity.
Defined.

Lemma legacy_query_string_witness :
  Legacy.soql (Some params_with_owner) = Ok "SELECT Name,Owner FROM Opportunity undefined"
  /\ Legacy.query (Some params_no_fields) logged_out (VFun "successCB") (VFun "failureCB")
     = Throw (TypeError "fields.join")
  /\ Legacy.query (Some params_no_fields) logged_in (VFun "successCB") (VFun "failureCB")
     = Throw (TypeError "fields.join").
Proof.
  split; [|split].
  - destruct (LegacyFacts.legacy_query_string (Some params_with_owner) recording_client
                (VFun "successCB") (VFun "failureCB")) as (_ & H & _).
    apply (H ["Name"; "Owner"]); reflexivity.
  - destruct (LegacyFacts.legacy_query_string (Some params_no_fields) recording_client
                (VFun "successCB") (VFun "failureCB")) as (_ & _ & H).
    apply (H logged_out). reflexivity.
  - destruct (LegacyFacts.legacy_query_string (Some params_no_fields) recording_client
                (VFun "successCB") (VFun "failureCB")) as (_ & _ & H).
    apply (H logged_in). reflexivity.
Defined.

Lemma legacy_prototype_drops_failure_witness :
  Legacy.prototype_destroy (Some sample_params) logged_in opportunity (VFun "cb")
  = Ok {| Legacy.receiver := a_client;
          Legacy.method := Legacy.Mdel (PStr "Opportunity") (VPrim (PStr "12312"));
          Legacy.success := Direct (VFun "cb");
          Legacy.failure := undefined |}.
Proof.
  apply (LegacyFacts.legacy_prototype_drops_failure (Some sample_params) recording_client
           logged_in a_client 0 Plain (own opportunity) (VFun "cb")).
  reflexivity.
Defined.

Lemma legacy_save_keeps_lowercase_id_witness :
  exists inst next',
    success_arg 5 (Wrapped (VFun "successCB")) created = Ok (inst, next')
    /\ reads inst "id" = VPrim (PStr "006xx")
    /\ reads inst "Id" = undefined.
Proof.
  apply (LegacyFacts.legacy_save_keeps_lowercase_id (Some sample_params) recording_client
           logged_in opportunity (VFun "successCB") (VFun "failureCB") _ 5 0 (own created)
           (PStr "006xx") eq_refl).
  - compute_done.
  - reflexivity.
  - reflexivity.
Defined.

Lemma legacy_login_needs_callback_witness :
  LegacyService.login undefined (Some logged_in)
  = (Some logged_in, [], Throw (TypeError "not a function")).
Proof.
  apply (LegacyFacts.legacy_login_needs_callback recording_client hosted_page logged_in
           a_client "callback").
  reflexivity.
Defined.

Lemma falsy_parameter_is_absent_witness :
  limit (Some params_limit_zero) = "LIMIT 25".
Proof.
  destruct (FactoryMore.falsy_parameter_is_absent (Some params_limit_zero)) as (_ & _ & H).
  apply H. reflexivity.
Defined.

End MoreInstances.
